(** * FBNet architecture search (anorthman/NAS): a shallow embedding

    The development follows [fbnet-pytorch/model.py] and
    [fbnet-pytorch/blocks.py].  Python exceptions are values of [exn];
    a call that may raise returns a [result].  Tensor entries are taken
    from an arbitrary scalar structure (class [Scalar]); wherever a proof
    needs an algebraic law of the scalars the law is an explicit
    assumption (class [ScalarLaws]).  The numeric kernels of PyTorch that
    the repository merely calls (convolutions, Gumbel-softmax, pooling,
    cross-entropy, powers, optimiser updates) are fields of the record
    [torch_lib] and stay uninterpreted. *)

From Stdlib Require Import String Ascii DecimalString List Arith Bool ZArith Lia.
Import ListNotations.
Open Scope list_scope.

(** ** Exceptions and the error monad *)

Inductive exn : Type :=
| IndexError | TypeError | ValueError | RuntimeError
| AssertionError | AttributeError | ZeroDivisionError | OSError.

Inductive result (A : Type) : Type :=
| Ok (a : A)
| Raise (e : exn).
Arguments Ok {A} a.
Arguments Raise {A} e.

Definition bind {A B} (m : result A) (k : A -> result B) : result B :=
  match m with
  | Ok a => k a
  | Raise e => Raise e
  end.

Notation "x <- m ;; k" := (bind m (fun x => k))
  (at level 61, m at next level, right associativity).

Definition is_ok {A} (m : result A) : bool :=
  match m with Ok _ => true | Raise _ => false end.

(** Python's [l[i]] on a list, for a non-negative index. *)
Definition py_index {A} (l : list A) (i : nat) : result A :=
  match nth_error l i with
  | Some a => Ok a
  | None => Raise IndexError
  end.

(** ** Scalars *)

Class Scalar (R : Type) : Type := {
  r0 : R;
  r1 : R;
  radd : R -> R -> R;
  rmul : R -> R -> R
}.

Class ScalarLaws (R : Type) {S : Scalar R} : Prop := {
  radd_0_l : forall a, radd r0 a = a;
  radd_0_r : forall a, radd a r0 = a;
  rmul_1_l : forall a, rmul r1 a = a;
  rmul_0_l : forall a, rmul r0 a = r0
}.

#[export] Instance Z_Scalar : Scalar Z :=
  {| r0 := 0%Z; r1 := 1%Z; radd := Z.add; rmul := Z.mul |}.

(** ** Tensors: a shape and the entries in row-major order *)

Section Tensors.
Context {R : Type} `{Scalar R}.

Record tensor : Type := mkTensor {
  shape : list nat;
  data : list R
}.

Definition numel (s : list nat) : nat := fold_right Nat.mul 1 s.

Definition wf_tensor (t : tensor) : Prop :=
  length (data t) = numel (shape t).

(** A zero-dimensional tensor holding one scalar. *)
Definition scalar_t (r : R) : tensor := mkTensor [] [r].

(** [torch.tensor(l)] for a list of Python floats. *)
Definition tensor_of_floats (l : list R) : tensor :=
  mkTensor [length l] l.

(** [n] consecutive chunks of [k] entries. *)
Fixpoint chunks (n k : nat) (d : list R) : list (list R) :=
  match n with
  | 0 => []
  | S n' => firstn k d :: chunks n' k (skipn k d)
  end.

(** Iterating a tensor yields its slices along the first dimension;
    a zero-dimensional tensor is not iterable. *)
Definition tensor_iter (t : tensor) : result (list tensor) :=
  match shape t with
  | [] => Raise TypeError
  | n :: s => Ok (map (mkTensor s) (chunks n (numel s) (data t)))
  end.

(** *** Broadcasting *)

(** Shapes are compared from the trailing dimension; here both
    arguments are reversed shapes. *)
Fixpoint bshape (s1 s2 : list nat) : option (list nat) :=
  match s1, s2 with
  | [], _ => Some s2
  | _, [] => Some s1
  | a :: s1', b :: s2' =>
      match bshape s1' s2' with
      | None => None
      | Some r =>
          if a =? b then Some (a :: r)
          else if a =? 1 then Some (b :: r)
          else if b =? 1 then Some (a :: r)
          else None
      end
  end.

Definition broadcast_shapes (s1 s2 : list nat) : option (list nat) :=
  option_map (@rev nat) (bshape (rev s1) (rev s2)).

(** Entries of a tensor of shape [src] laid out in the shape [dst] it
    broadcasts to: missing leading dimensions and dimensions of size 1
    are replicated. *)
Fixpoint expand (src dst : list nat) (d : list R) {struct dst} : list R :=
  match dst with
  | [] => d
  | b :: dst' =>
      if length src <? S (length dst')
      then concat (repeat (expand src dst' d) b)
      else match src with
           | [] => d
           | a :: src' =>
               if a =? b
               then concat (map (expand src' dst') (chunks a (numel src') d))
               else concat (repeat (expand src' dst' d) b)
           end
  end.

Fixpoint map2 (f : R -> R -> R) (l1 l2 : list R) : list R :=
  match l1, l2 with
  | a :: l1', b :: l2' => f a b :: map2 f l1' l2'
  | _, _ => []
  end.

Definition tbin (f : R -> R -> R) (a b : tensor) : result tensor :=
  match broadcast_shapes (shape a) (shape b) with
  | None => Raise RuntimeError
  | Some s =>
      Ok (mkTensor s (map2 f (expand (shape a) s (data a))
                            (expand (shape b) s (data b))))
  end.

(** [a * b] and [a + b] on tensors. *)
Definition tmul : tensor -> tensor -> result tensor := tbin rmul.
Definition tadd : tensor -> tensor -> result tensor := tbin radd.

(** [t.sum()]: a zero-dimensional tensor. *)
Definition tsum (t : tensor) : tensor :=
  scalar_t (fold_left radd (data t) r0).

(** [t.repeat(n, 1)] for a one-dimensional [t]. *)
Definition repeat_rows (n : nat) (t : tensor) : tensor :=
  mkTensor (n :: shape t) (concat (repeat (data t) n)).

(** *** Python values flowing through the network *)

Inductive pyval : Type :=
| PInt (z : Z)
| PTensor (t : tensor).

(** [acc + t] where [acc] is the running value of the builtin [sum]:
    the integer start value 0, the only integer [sum] ever holds here,
    defers to the tensor's reflected addition. *)
Definition py_add (acc : pyval) (t : tensor) : result pyval :=
  match acc with
  | PInt z =>
      match z with
      | Z0 => Ok (PTensor (mkTensor (shape t)
                             (map (fun a => radd a r0) (data t))))
      | _ => Raise TypeError
      end
  | PTensor a => r <- tadd a t ;; Ok (PTensor r)
  end.

(** ** Modules *)

(** An [nn.Module]: the trainable tensors it owns, what calling it
    computes from them, and its [__len__] when the class defines one
    ([nn.Sequential] does, [nn.Conv2d] does not). *)
Record module : Type := mkModule {
  mparams : list tensor;
  mcall : list tensor -> tensor -> result tensor;
  mlen : option nat
}.

(** [m(v)]: the layers of this repository accept tensors only. *)
Definition call_module (m : module) (v : pyval) : result tensor :=
  match v with
  | PTensor t => mcall m (mparams m) t
  | PInt _ => Raise TypeError
  end.

(** ** MixedOp *)

(** [MixedOp.__init__] appends the blocks, in order, to [self._ops]. *)
Record MixedOp : Type := mkMixedOp { mo_ops : list module }.

Definition MixedOp_init (blocks : list module) : MixedOp :=
  mkMixedOp (fold_left (fun ops op => ops ++ [op]) blocks []).

(** The generator [w * op(x) for w, op in zip(weights, self._ops)]
    consumed by [sum]: [zip] stops at the shorter sequence, and each term
    is evaluated when [sum] asks for it. *)
Fixpoint sum_terms (x : pyval) (acc : pyval)
         (ws : list tensor) (ops : list module) : result pyval :=
  match ws, ops with
  | w :: ws', op :: ops' =>
      y <- call_module op x ;;
      term <- tmul w y ;;
      acc' <- py_add acc term ;;
      sum_terms x acc' ws' ops'
  | _, _ => Ok acc
  end.

Definition MixedOp_forward (m : MixedOp) (x : pyval) (weights : tensor)
  : result pyval :=
  ws <- tensor_iter weights ;;
  sum_terms x (PInt 0) ws (mo_ops m).

End Tensors.

Arguments tensor R : clear implicits.
Arguments pyval R : clear implicits.
Arguments module R : clear implicits.
Arguments MixedOp R : clear implicits.

(** ** Strings: [str.strip()] and [str.split(' ')] *)

(** The characters below 256 that [str.isspace()] accepts. *)
Definition is_space (c : ascii) : bool :=
  let n := nat_of_ascii c in
  ((9 <=? n) && (n <=? 13)) || ((28 <=? n) && (n <=? 32)) ||
  (n =? 133) || (n =? 160).

Fixpoint lstrip (s : string) : string :=
  match s with
  | EmptyString => EmptyString
  | String c s' => if is_space c then lstrip s' else s
  end.

Fixpoint rstrip (s : string) : string :=
  match s with
  | EmptyString => EmptyString
  | String c s' =>
      match rstrip s' with
      | EmptyString => if is_space c then EmptyString else String c EmptyString
      | r => String c r
      end
  end.

Definition strip (s : string) : string := rstrip (lstrip s).

Fixpoint split_space (s : string) : list string :=
  match s with
  | EmptyString => [EmptyString]
  | String c s' =>
      let r := split_space s' in
      if Ascii.eqb c " "%char then EmptyString :: r
      else match r with
           | h :: t => String c h :: t
           | [] => [String c EmptyString]
           end
  end.

(** [[f(x) for x in l]] where [f] may raise. *)
Fixpoint map_result {A B} (f : A -> result B) (l : list A) : result (list B) :=
  match l with
  | [] => Ok []
  | a :: l' => b <- f a ;; bs <- map_result f l' ;; Ok (b :: bs)
  end.

(** ** The library kernels the repository calls *)

Record torch_lib (R : Type) `{Scalar R} : Type := mkTorch {
  (** [nn.functional.gumbel_softmax(t, temperature)] *)
  gumbel_softmax : tensor R -> R -> result (tensor R);
  (** Python's [float(s)] *)
  parse_float : string -> result R;
  (** [torch.tensor(l)] for a list of tensors *)
  tensor_of_tensors : list (tensor R) -> result (tensor R);
  (** [nn.avg_pool2d(data, data.size()[2:])] *)
  avg_pool2d : tensor R -> result (tensor R);
  (** [nn.CrossEntropyLoss()(logits, target)] *)
  cross_entropy : tensor R -> list Z -> result (tensor R);
  (** [a ** b] on scalars *)
  rpow : R -> R -> R;
  (** [torch.sum(torch.argmax(logits, dim=1) == target) / batch_size] *)
  accuracy : tensor R -> list Z -> nat -> result R;
  (** a fresh [nn.Linear(n_in, n_out)] *)
  new_linear : nat -> nat -> module R
}.

Arguments mkTorch {R _}.
Arguments gumbel_softmax {R _} _ _ _.
Arguments parse_float {R _} _ _.
Arguments tensor_of_tensors {R _} _ _.
Arguments avg_pool2d {R _} _ _.
Arguments cross_entropy {R _} _ _ _.
Arguments rpow {R _} _ _ _.
Arguments accuracy {R _} _ _ _ _.
Arguments new_linear {R _} _ _ _.

(** ** FBNet *)

Section Network.
Context {R : Type} `{Scalar R} (T : torch_lib R).

(** An entry of the block sequence: a module, or a Python list of
    candidate modules ([isinstance(b, list)]). *)
Inductive block : Type :=
| BModule (m : module R)
| BList (cands : list (module R)).

Definition is_list (b : block) : bool :=
  match b with BList _ => true | BModule _ => false end.

(** [len(block)] *)
Definition block_len (b : block) : result nat :=
  match b with
  | BList l => Ok (length l)
  | BModule m =>
      match mlen m with
      | Some n => Ok n
      | None => Raise TypeError
      end
  end.

(** [block(data)]: a list is not callable. *)
Definition block_call (b : block) (v : pyval R) : result (tensor R) :=
  match b with
  | BModule m => call_module m v
  | BList _ => Raise TypeError
  end.

Record FBNet : Type := mkFBNet {
  _alpha : R;
  _beta : R;
  theta : list (tensor R);
  _ops : list (MixedOp R);
  _blocks : list block;
  _speed : list string;
  classifier : module R;
  (* set by [forward] *)
  ce : option (tensor R);
  lat_loss : option (tensor R);
  loss : option (tensor R);
  acc : option R;
  batch_size : option nat
}.

(** [torch.ones((n,))] followed by [nn.init.constant_(x, v)]. *)
Definition constant_ (t : tensor R) (v : R) : tensor R :=
  mkTensor (shape t) (map (fun _ => v) (data t)).

Definition ones (n : nat) : tensor R := mkTensor [n] (repeat r1 n).

(** The loop of [__init__] (lines 42-49): the pair [(self.theta, self._ops)]. *)
Definition init_loop (init_theta : R) (blocks : list block)
  : list (tensor R) * list (MixedOp R) :=
  fold_left
    (fun st b =>
       match b with
       | BList l =>
           (fst st ++ [constant_ (ones (length l)) init_theta],
            snd st ++ [MixedOp_init l])
       | BModule _ => st
       end)
    blocks ([], []).

(** [FBNet.__init__]; [speed_f] is what opening the latency file and
    [readlines()] give. *)
Definition FBNet_init (num_classes : nat) (blocks : list block)
           (init_theta : R) (speed_f : result (list string))
           (alpha beta : R) : result FBNet :=
  let st := init_loop init_theta blocks in
  if length (fst st) =? 22 then
    lines <- speed_f ;;
    Ok (mkFBNet alpha beta (fst st) (snd st) blocks lines
                (new_linear T 1984 num_classes)
                None None None None None)
  else Raise AssertionError.

(** State of the loop of [forward]. *)
Record loop_state : Type := mkLoop {
  ls_data : pyval R;
  ls_theta_idx : nat;
  ls_lat : list (tensor R)
}.

(** The body of the [if len(block) > 1] branch (lines 65-76). *)
Definition searchable_step (net : FBNet) (batch : nat) (temperature : R)
           (st : loop_state) : result loop_state :=
  th <- py_index (theta net) (ls_theta_idx st) ;;
  let theta_idx := S (ls_theta_idx st) in
  let t := repeat_rows batch th in
  weight <- gumbel_softmax T t temperature ;;
  line <- py_index (_speed net) theta_idx ;;
  speed <- map_result (parse_float T) (split_space (strip line)) ;;
  lat_ <- tmul weight (tsum (repeat_rows batch (tensor_of_floats speed))) ;;
  mop <- py_index (_ops net) theta_idx ;;
  d <- MixedOp_forward mop (ls_data st) weight ;;
  Ok (mkLoop d theta_idx (ls_lat st ++ [lat_])).

(** One iteration of the loop (lines 63-78). *)
Definition loop_body (net : FBNet) (batch : nat) (temperature : R)
           (b : block) (st : loop_state) : result loop_state :=
  n <- block_len b ;;
  if 1 <? n then searchable_step net batch temperature st
  else
    d <- block_call b (ls_data st) ;;
    Ok (mkLoop (PTensor d) (ls_theta_idx st) (ls_lat st)).

(** The loop over [self._blocks[1:]]. *)
Fixpoint forward_loop (net : FBNet) (batch : nat) (temperature : R)
         (bs : list block) (st : loop_state) : result loop_state :=
  match bs with
  | [] => Ok st
  | b :: bs' =>
      st' <- loop_body net batch temperature b st ;;
      forward_loop net batch temperature bs' st'
  end.

(** Lines 80-91. *)
Definition forward_tail (net : FBNet) (target : list Z) (batch : nat)
           (st : loop_state) : result (FBNet * tensor R) :=
  lat <- tensor_of_tensors T (ls_lat st) ;;
  pooled <- match ls_data st with
            | PTensor d => avg_pool2d T d
            | PInt _ => Raise AttributeError
            end ;;
  logits <- mcall (classifier net) (mparams (classifier net)) pooled ;;
  c <- cross_entropy T logits target ;;
  let ce' := tsum c in
  let lat_loss' := tsum lat in
  let powed := mkTensor (shape lat_loss')
                 (map (fun a => rmul (_alpha net) (rpow T a (_beta net)))
                      (data lat_loss')) in
  loss' <- tadd ce' powed ;;
  acc' <- accuracy T logits target batch ;;
  Ok (mkFBNet (_alpha net) (_beta net) (theta net) (_ops net)
              (_blocks net) (_speed net) (classifier net)
              (Some ce') (Some lat_loss') (Some loss') (Some acc')
              (Some batch),
      loss').

(** [FBNet.forward(input, target, temperature)].  The attributes that
    [forward] assigns are those of the returned network; a call that
    raises is abandoned by every caller in the repository, so its
    partial assignments are not tracked. *)
Definition forward (net : FBNet) (input : tensor R) (target : list Z)
           (temperature : R) : result (FBNet * tensor R) :=
  batch <- py_index (shape input) 0 ;;
  b0 <- py_index (_blocks net) 0 ;;
  d0 <- block_call b0 (PTensor input) ;;
  st <- forward_loop net batch temperature (tl (_blocks net))
                     (mkLoop (PTensor d0) 0 []) ;;
  forward_tail net target batch st.

End Network.

Arguments block R : clear implicits.
Arguments FBNet R : clear implicits.
Arguments loop_state R : clear implicits.

(** ** Trainable tensors and their names *)

(** A trainable tensor is named by where the network keeps it: the
    [i]-th theta vector, the [i]-th tensor of the classifier, or tensor
    [i] of candidate [c] (0 for a plain module) of entry [l] of the block
    sequence. *)
Inductive pname : Type :=
| NTheta (i : nat)
| NClassifier (i : nat)
| NBlock (l c i : nat).

Definition pname_eqb (a b : pname) : bool :=
  match a, b with
  | NTheta i, NTheta j => i =? j
  | NClassifier i, NClassifier j => i =? j
  | NBlock l c i, NBlock l' c' i' => (l =? l') && (c =? c') && (i =? i')
  | _, _ => false
  end.

(** Whether a name occurs in a list of names. *)
Definition pname_mem (v : pname) (l : list pname) : bool :=
  existsb (pname_eqb v) l.

(** [l[i] = v] for an index in range; out of range the list is returned
    as it is (no caller reaches it). *)
Fixpoint list_set {A} (l : list A) (i : nat) (v : A) : list A :=
  match l, i with
  | [], _ => []
  | _ :: l', 0 => v :: l'
  | a :: l', S i' => a :: list_set l' i' v
  end.

Section Parameters.
Context {R : Type} `{Scalar R}.

Definition module_names (l c : nat) (m : module R) : list pname :=
  map (NBlock l c) (seq 0 (length (mparams m))).

Definition block_names (l : nat) (b : block R) : list pname :=
  match b with
  | BModule m => module_names l 0 m
  | BList cands =>
      concat (map (fun cm => module_names l (fst cm) (snd cm))
                  (combine (seq 0 (length cands)) cands))
  end.

(** The theta vectors, [network.theta]. *)
Definition theta_names (net : FBNet R) : list pname :=
  map NTheta (seq 0 (length (theta net))).

Definition classifier_names (net : FBNet R) : list pname :=
  map NClassifier (seq 0 (length (mparams (classifier net)))).

(** Every tensor of the network that requires a gradient. *)
Definition trainable_names (net : FBNet R) : list pname :=
  theta_names net ++ classifier_names net ++
  concat (map (fun lb => block_names (fst lb) (snd lb))
              (combine (seq 0 (length (_blocks net))) (_blocks net))).

(** [network.parameters()]: the parameters of the attributes that are
    themselves modules.  [self._criterion] has none, [self.classifier]
    has its own; [self.theta], [self._ops] and [self._blocks] are plain
    Python lists, which [nn.Module] does not traverse. *)
Definition parameters (net : FBNet R) : list pname :=
  classifier_names net.

(** The tensors of [network.parameters()] and of [network.theta], each
    with its name. *)
Definition named_parameters (net : FBNet R) : list (pname * tensor R) :=
  combine (parameters net) (mparams (classifier net)).

Definition named_thetas (net : FBNet R) : list (pname * tensor R) :=
  combine (theta_names net) (theta net).

Definition get_param (net : FBNet R) (n : pname) : option (tensor R) :=
  match n with
  | NTheta i => nth_error (theta net) i
  | NClassifier i => nth_error (mparams (classifier net)) i
  | NBlock l c i =>
      match nth_error (_blocks net) l with
      | Some (BModule m) => nth_error (mparams m) i
      | Some (BList cands) =>
          match nth_error cands c with
          | Some m => nth_error (mparams m) i
          | None => None
          end
      | None => None
      end
  end.

Definition set_mparam (m : module R) (i : nat) (v : tensor R) : module R :=
  mkModule (list_set (mparams m) i v) (mcall m) (mlen m).

Definition with_theta (net : FBNet R) (th : list (tensor R)) : FBNet R :=
  mkFBNet (_alpha net) (_beta net) th (_ops net) (_blocks net)
          (_speed net) (classifier net)
          (ce net) (lat_loss net) (loss net) (acc net) (batch_size net).

Definition with_classifier (net : FBNet R) (m : module R) : FBNet R :=
  mkFBNet (_alpha net) (_beta net) (theta net) (_ops net) (_blocks net)
          (_speed net) m
          (ce net) (lat_loss net) (loss net) (acc net) (batch_size net).

(** In-place update of the tensor an optimiser holds.  The optimisers
    of [Trainer] hold theta vectors and classifier tensors only. *)
Definition set_param (net : FBNet R) (n : pname) (v : tensor R) : FBNet R :=
  match n with
  | NTheta i => with_theta net (list_set (theta net) i v)
  | NClassifier i =>
      with_classifier net (set_mparam (classifier net) i v)
  | NBlock _ _ _ => net
  end.

End Parameters.

(** ** Optimisers, gradients and meters *)

(** What [Trainer] takes from [torch.optim], from autograd, from the
    clock and the logger, and from [utils.AvgrageMeter] (a module of the
    repository that [model.py] imports; only its [update] is called). *)
Record optim_lib (R : Type) `{Scalar R} : Type := mkOptim {
  (** the [.grad] fields of all tensors *)
  grad : Type;
  (** the internal state of an optimiser *)
  ostate : Type;
  meter : Type;
  no_grad : grad;
  (** [opt.zero_grad()] on the tensors the optimiser holds *)
  zero_grad : list pname -> grad -> grad;
  (** [loss.backward()] *)
  backward : FBNet R -> tensor R -> grad -> grad;
  (** [torch.optim.SGD(params, lr, momentum, weight_decay)] *)
  new_sgd : R -> R -> R -> ostate;
  (** [torch.optim.Adam(params, lr, betas=(0.5, 0.999), weight_decay)] *)
  new_adam : R -> R -> ostate;
  (** the new value [opt.step()] gives one tensor it holds *)
  sgd_rule : ostate -> grad -> pname -> tensor R -> tensor R;
  sgd_next : ostate -> grad -> ostate;
  adam_rule : ostate -> grad -> pname -> tensor R -> tensor R;
  adam_next : ostate -> grad -> ostate;
  (** [x / batch_size] *)
  rdiv_n : R -> nat -> R;
  (** [AvgrageMeter(name)] and [meter.update(val, n)] *)
  new_meter : string -> meter;
  meter_update : meter -> tensor R -> nat -> meter;
  (** whether [.cuda()] finds a device *)
  cuda_available : bool;
  (** lines 175-181: read the clock, compute the throughput, log;
      indexed by the number of reports made before *)
  report : nat -> result unit;
  (** [str(x)] of a tensor *)
  str_tensor : tensor R -> string;
  (** [x == y] on two entries *)
  eq_scalar : R -> R -> bool
}.

Arguments mkOptim {R _}.
Arguments grad {R _} _.
Arguments ostate {R _} _.
Arguments meter {R _} _.
Arguments no_grad {R _} _.
Arguments zero_grad {R _} _ _ _.
Arguments backward {R _} _ _ _ _.
Arguments new_sgd {R _} _ _ _ _.
Arguments new_adam {R _} _ _ _.
Arguments sgd_rule {R _} _ _ _ _ _.
Arguments sgd_next {R _} _ _ _.
Arguments adam_rule {R _} _ _ _ _ _.
Arguments adam_next {R _} _ _ _.
Arguments rdiv_n {R _} _ _ _.
Arguments new_meter {R _} _ _.
Arguments meter_update {R _} _ _ _ _.
Arguments cuda_available {R _} _.
Arguments report {R _} _ _.
Arguments str_tensor {R _} _ _.
Arguments eq_scalar {R _} _ _ _.

(** ** Trainer *)

(** The calls [search] makes, in order: which update, and with which
    [decay_temperature]. *)
Inductive call_event (B : Type) : Type :=
| TrainW (decay : bool) (batch : B)
| TrainT (decay : bool) (batch : B).
Arguments TrainW {B} decay batch.
Arguments TrainT {B} decay batch.

Section Training.
Context {R : Type} `{Scalar R} (T : torch_lib R) (O : optim_lib R).

(** A batch: [(input, target)]. *)
Definition batch_t : Type := (tensor R * list Z)%type.

Record Trainer : Type := mkTrainer {
  _mod : FBNet R;
  (* the tensors held by [self.t_opt] and by [self.w_opt] *)
  tr_theta : list pname;
  tr_w : list pname;
  _tem_decay : R;
  temp : R;
  _acc_avg : meter O;
  _ce_avg : meter O;
  _lat_avg : meter O;
  w_opt : ostate O;
  t_opt : ostate O;
  grads : grad O;
  (* bookkeeping of the model: reports made, calls made *)
  reports : nat;
  calls : list (call_event batch_t)
}.

(** [bool(a == b)] for two tensors: the comparison broadcasts like every
    elementwise operation, and only a result of exactly one element has a
    truth value. *)
Definition tensor_eq_truth (a b : tensor R) : result bool :=
  match broadcast_shapes (shape a) (shape b) with
  | None => Raise RuntimeError
  | Some s =>
      if numel s =? 1 then
        match map (fun p => eq_scalar O (fst p) (snd p))
                  (combine (expand (shape a) s (data a))
                           (expand (shape b) s (data b))) with
        | [x] => Ok x
        | _ => Raise RuntimeError
        end
      else Raise RuntimeError
  end.

(** [v in l] for a list [l] of tensors: an element that is the very
    object [v] is found at once; every other element [e] met on the way is
    compared with [e == v], whose truth value is taken. *)
Fixpoint tensor_in (v : pname * tensor R) (l : list (pname * tensor R))
  : result bool :=
  match l with
  | [] => Ok false
  | e :: l' =>
      if pname_eqb (fst e) (fst v) then Ok true
      else
        found <- tensor_eq_truth (snd e) (snd v) ;;
        if found then Ok true else tensor_in v l'
  end.

(** Lines 109-112: the parameters that are not theta vectors. *)
Fixpoint mod_params_loop (thetas ps : list (pname * tensor R))
         (mod_params : list pname) : result (list pname) :=
  match ps with
  | [] => Ok mod_params
  | v :: ps' =>
      found <- tensor_in v thetas ;;
      mod_params_loop thetas ps'
        (if found then mod_params else mod_params ++ [fst v])
  end.

Definition mod_params (network : FBNet R) : result (list pname) :=
  mod_params_loop (named_thetas network) (named_parameters network) [].

(** Lines 113-132: the trainer over a network and the parameters kept
    for the weight optimiser. *)
Definition new_trainer (network : FBNet R) (mod_params : list pname)
           (w_lr w_mom w_wd t_lr t_wd : R)
           (init_temperature temperature_decay : R) : Trainer :=
  mkTrainer network (theta_names network) mod_params
            temperature_decay init_temperature
            (new_meter O "acc") (new_meter O "ce") (new_meter O "lat")
            (new_sgd O w_lr w_mom w_wd) (new_adam O t_lr t_wd)
            (no_grad O) 0 [].

(** [Trainer.__init__] *)
Definition Trainer_init (network : FBNet R)
           (w_lr w_mom w_wd t_lr t_wd : R)
           (init_temperature temperature_decay : R) : result Trainer :=
  mp <- mod_params network ;;
  Ok (new_trainer network mp w_lr w_mom w_wd t_lr t_wd
                  init_temperature temperature_decay).

(** The methods mutate [self] and may raise: a computation takes the
    trainer and gives the trainer it leaves behind with what it
    returned or raised. *)
Definition TM (A : Type) : Type := Trainer -> Trainer * result A.

Definition tret {A} (a : A) : TM A := fun tr => (tr, Ok a).

Definition tbind {A B} (m : TM A) (k : A -> TM B) : TM B :=
  fun tr =>
    match m tr with
    | (tr', Ok a) => k a tr'
    | (tr', Raise e) => (tr', Raise e)
    end.

Definition tlift {A} (r : result A) : TM A := fun tr => (tr, r).

Definition tmodify (f : Trainer -> Trainer) : TM unit :=
  fun tr => (f tr, Ok tt).

Definition tget {A} (f : Trainer -> A) : TM A := fun tr => (tr, Ok (f tr)).

(** [for x in l: body(x)] *)
Fixpoint for_each {A} (l : list A) (body : A -> TM unit) : TM unit :=
  match l with
  | [] => tret tt
  | a :: l' => tbind (body a) (fun _ => for_each l' body)
  end.

(** [opt.step()]: every tensor the optimiser holds gets its new value. *)
Definition opt_step (rule : pname -> tensor R -> tensor R)
           (names : list pname) (net : FBNet R) : FBNet R :=
  fold_left
    (fun net n =>
       match get_param net n with
       | Some v => set_param net n (rule n v)
       | None => net
       end)
    names net.

Definition set_mod (net : FBNet R) (tr : Trainer) : Trainer :=
  mkTrainer net (tr_theta tr) (tr_w tr) (_tem_decay tr) (temp tr)
            (_acc_avg tr) (_ce_avg tr) (_lat_avg tr)
            (w_opt tr) (t_opt tr) (grads tr) (reports tr) (calls tr).

Definition set_grads (g : grad O) (tr : Trainer) : Trainer :=
  mkTrainer (_mod tr) (tr_theta tr) (tr_w tr) (_tem_decay tr) (temp tr)
            (_acc_avg tr) (_ce_avg tr) (_lat_avg tr)
            (w_opt tr) (t_opt tr) g (reports tr) (calls tr).

Definition set_opts (wo to : ostate O) (tr : Trainer) : Trainer :=
  mkTrainer (_mod tr) (tr_theta tr) (tr_w tr) (_tem_decay tr) (temp tr)
            (_acc_avg tr) (_ce_avg tr) (_lat_avg tr)
            wo to (grads tr) (reports tr) (calls tr).

Definition set_temp (t : R) (tr : Trainer) : Trainer :=
  mkTrainer (_mod tr) (tr_theta tr) (tr_w tr) (_tem_decay tr) t
            (_acc_avg tr) (_ce_avg tr) (_lat_avg tr)
            (w_opt tr) (t_opt tr) (grads tr) (reports tr) (calls tr).

Definition set_meters (a c l : meter O) (tr : Trainer) : Trainer :=
  mkTrainer (_mod tr) (tr_theta tr) (tr_w tr) (_tem_decay tr) (temp tr)
            a c l
            (w_opt tr) (t_opt tr) (grads tr) (reports tr) (calls tr).

Definition set_reports (n : nat) (tr : Trainer) : Trainer :=
  mkTrainer (_mod tr) (tr_theta tr) (tr_w tr) (_tem_decay tr) (temp tr)
            (_acc_avg tr) (_ce_avg tr) (_lat_avg tr)
            (w_opt tr) (t_opt tr) (grads tr) n (calls tr).

Definition record_call (c : call_event batch_t) (tr : Trainer) : Trainer :=
  mkTrainer (_mod tr) (tr_theta tr) (tr_w tr) (_tem_decay tr) (temp tr)
            (_acc_avg tr) (_ce_avg tr) (_lat_avg tr)
            (w_opt tr) (t_opt tr) (grads tr) (reports tr)
            (calls tr ++ [c]).

(** [if decay_temperature: self.temp *= self._tem_decay] *)
Definition decay_temp (decay_temperature : bool) : TM unit :=
  if decay_temperature
  then tmodify (fun tr => set_temp (rmul (temp tr) (_tem_decay tr)) tr)
  else tret tt.

(** [self._mod(input, target, self.temp)] followed by [loss.backward()]. *)
Definition forward_backward (input : tensor R) (target : list Z) : TM unit :=
  fun tr =>
    match forward T (_mod tr) input target (temp tr) with
    | Raise e => (tr, Raise e)
    | Ok (net, l) =>
        (set_grads (backward O net l (grads tr)) (set_mod net tr), Ok tt)
    end.

(** [Trainer.train_w] *)
Definition train_w (input : tensor R) (target : list Z)
           (decay_temperature : bool) : TM unit :=
  tbind (tmodify (record_call (TrainW decay_temperature (input, target))))
    (fun _ =>
  tbind (tmodify (fun tr => set_grads (zero_grad O (tr_w tr) (grads tr)) tr))
    (fun _ =>
  tbind (forward_backward input target) (fun _ =>
  tbind (tmodify (fun tr =>
           set_opts (sgd_next O (w_opt tr) (grads tr)) (t_opt tr)
             (set_mod (opt_step (sgd_rule O (w_opt tr) (grads tr))
                                (tr_w tr) (_mod tr)) tr)))
    (fun _ => decay_temp decay_temperature)))).

(** [Trainer.train_t] *)
Definition train_t (input : tensor R) (target : list Z)
           (decay_temperature : bool) : TM unit :=
  tbind (tmodify (record_call (TrainT decay_temperature (input, target))))
    (fun _ =>
  tbind (tmodify (fun tr =>
           set_grads (zero_grad O (tr_theta tr) (grads tr)) tr))
    (fun _ =>
  tbind (forward_backward input target) (fun _ =>
  tbind (tmodify (fun tr =>
           set_opts (w_opt tr) (adam_next O (t_opt tr) (grads tr))
             (set_mod (opt_step (adam_rule O (t_opt tr) (grads tr))
                                (tr_theta tr) (_mod tr)) tr)))
    (fun _ => decay_temp decay_temperature)))).

(** [x / batch_size] on a tensor. *)
Definition tdiv_n (t : tensor R) (n : nat) : tensor R :=
  mkTensor (shape t) (map (fun a => rdiv_n O a n) (data t)).

(** An attribute that exists only once [forward] has assigned it. *)
Definition attr {A} (o : option A) : result A :=
  match o with
  | Some a => Ok a
  | None => Raise AttributeError
  end.

(** Lines 165-172 of [_step]. *)
Definition update_meters : TM unit :=
  fun tr =>
    let net := _mod tr in
    match
      (bs <- attr (batch_size net) ;;
       a <- attr (acc net) ;;
       c <- attr (ce net) ;;
       l <- attr (lat_loss net) ;;
       Ok (bs, scalar_t a, tdiv_n c bs, tdiv_n l bs))
    with
    | Raise e => (tr, Raise e)
    | Ok (bs, a, c, l) =>
        (set_meters (meter_update O (_acc_avg tr) a bs)
                    (meter_update O (_ce_avg tr) c bs)
                    (meter_update O (_lat_avg tr) l bs) tr, Ok tt)
    end.

(** Lines 174-181 of [_step]. *)
Definition maybe_report (step : nat) (log_frequence : Z) : TM unit :=
  if 1 <? step then
    if (log_frequence =? 0)%Z then tlift (Raise ZeroDivisionError)
    else if (Z.of_nat step mod log_frequence =? 0)%Z then
      fun tr =>
        match report O (reports tr) with
        | Raise e => (tr, Raise e)
        | Ok _ => (set_reports (S (reports tr)) tr, Ok tt)
        end
    else tret tt
  else tret tt.

(** [Trainer._step] *)
Definition _step (input : tensor R) (target : list Z)
           (epoch step : nat) (log_frequence : Z)
           (func : tensor R -> list Z -> TM unit) : TM unit :=
  tbind (tlift (if cuda_available O then Ok tt else Raise RuntimeError))
    (fun _ =>
  tbind (func input target) (fun _ =>
  tbind update_meters (fun _ =>
  maybe_report step log_frequence))).

(** [enumerate(l)] *)
Definition enumerate {A} (l : list A) : list (nat * A) :=
  combine (seq 0 (length l)) l.

(** One pass over a loader: [for step, (input, target) in enumerate(ds)]. *)
Definition pass (ds : list batch_t) (epoch : nat) (log_frequence : Z)
           (func : tensor R -> list Z -> TM unit) : TM unit :=
  for_each (enumerate ds)
    (fun sb => _step (fst (snd sb)) (snd (snd sb)) epoch (fst sb)
                     log_frequence func).

(** [Trainer.search].  A loader is restarted by every [for] over it and
    need not repeat itself: [train_w_ds k] is what the [k]-th iteration
    over the weight loader yields, and likewise for [train_t_ds]. *)
Definition search (train_w_ds train_t_ds : nat -> list batch_t)
           (total_epoch start_w_epoch log_frequence : Z) : TM unit :=
  if (1 <=? start_w_epoch)%Z then
    let warm := Z.to_nat start_w_epoch in
    tbind
      (for_each (seq 0 warm)
         (fun epoch =>
            pass (train_w_ds epoch) epoch log_frequence
                 (fun x y => train_w x y false)))
      (fun _ =>
         for_each (seq 0 (Z.to_nat total_epoch))
           (fun epoch =>
              tbind
                (pass (train_t_ds epoch) (epoch + warm) log_frequence
                      (fun x y => train_t x y true))
                (fun _ =>
                   pass (train_w_ds (warm + epoch)) (epoch + warm)
                        log_frequence
                        (fun x y => train_w x y false))))
  else tlift (Raise AssertionError).

(** [' '.join(l)] *)
Fixpoint join_space (l : list string) : string :=
  match l with
  | [] => EmptyString
  | [s] => s
  | s :: l' => (s ++ " " ++ join_space l')%string
  end.

(** The loop of [save_theta] (lines 215-219): the text written so far
    and [res]. *)
Fixpoint save_loop (ths : list (tensor R)) (file : string)
         (res : list (list (tensor R)))
  : result (string * list (list (tensor R))) :=
  match ths with
  | [] => Ok (file, res)
  | t :: ths' =>
      t_list <- tensor_iter t ;;
      let s := join_space (map (str_tensor O) t_list) in
      save_loop ths' (file ++ (s ++ "/n"))%string (res ++ [t_list])
  end.

(** [Trainer.save_theta]: the text of the file and the value returned;
    [writable] tells whether [open(save_path, 'w')] succeeds. *)
Definition save_theta (tr : Trainer) (writable : bool)
  : result (string * list (list (tensor R))) :=
  if writable then save_loop (theta (_mod tr)) EmptyString []
  else Raise OSError.

End Training.

Arguments Trainer {R _} O.
Arguments tret {R _ O A} a tr.
Arguments tbind {R _ O A B} m k tr.
Arguments tlift {R _ O A} r tr.
Arguments tmodify {R _ O} f tr.
Arguments tget {R _ O A} f tr.
Arguments for_each {R _ O A} l body tr.
Arguments _mod {R _ O} _.
Arguments tr_theta {R _ O} _.
Arguments tr_w {R _ O} _.
Arguments _tem_decay {R _ O} _.
Arguments temp {R _ O} _.
Arguments _acc_avg {R _ O} _.
Arguments _ce_avg {R _ O} _.
Arguments _lat_avg {R _ O} _.
Arguments w_opt {R _ O} _.
Arguments t_opt {R _ O} _.
Arguments grads {R _ O} _.
Arguments reports {R _ O} _.
Arguments calls {R _ O} _.

(** [f.readlines()]: the text cut after every newline character. *)
Fixpoint readlines_aux (cur : string) (s : string) : list string :=
  match s with
  | EmptyString =>
      match cur with
      | EmptyString => []
      | _ => [cur]
      end
  | String c s' =>
      if Ascii.eqb c (ascii_of_nat 10)
      then (cur ++ String c EmptyString)%string :: readlines_aux EmptyString s'
      else readlines_aux (cur ++ String c EmptyString)%string s'
  end.

Definition readlines (s : string) : list string :=
  readlines_aux EmptyString s.

(** ** blocks.py *)

(** The arguments of an [nn.Conv2d]. *)
Record conv_cfg : Type := mkConv {
  in_channels : nat;
  out_channels : nat;
  kernel_size : nat;
  conv_stride : nat;
  padding : nat;
  groups : nat;
  bias : bool
}.

(** The kernels behind the layers, and the random initialisation of a
    convolution's weights from the state of the generator. *)
Record conv_lib (R : Type) : Type := mkConvLib {
  rng : Type;
  conv_params : rng -> conv_cfg -> rng * list (tensor R);
  conv2d : conv_cfg -> list (tensor R) -> tensor R -> result (tensor R);
  relu : R -> R
}.

Arguments mkConvLib {R}.
Arguments rng {R} _.
Arguments conv_params {R} _ _ _.
Arguments conv2d {R} _ _ _ _.
Arguments relu {R} _ _.

Section Blocks.
Context {R : Type} `{Scalar R} (C : conv_lib R).

(** [nn.Conv2d(...)]: the constructor rejects channel counts that the
    number of groups does not divide. *)
Definition Conv2d_new (g : rng C) (c_in c_out k s p grp : nat) (b : bool)
  : result (rng C * (conv_cfg * list (tensor R))) :=
  if (grp =? 0) || negb (c_in mod grp =? 0) || negb (c_out mod grp =? 0)
  then Raise ValueError
  else
    let cfg := mkConv c_in c_out k s p grp b in
    let gp := conv_params C g cfg in
    Ok (fst gp, (cfg, snd gp)).

Record FBNetBlock : Type := mkFBNetBlock {
  (* [self.op]: the three convolutions, a ReLU after the first two *)
  op1 : conv_cfg * list (tensor R);
  op2 : conv_cfg * list (tensor R);
  op3 : conv_cfg * list (tensor R);
  res_flag : bool;
  trans : option (conv_cfg * list (tensor R))
}.

(** [FBNetBlock.__init__] *)
Definition FBNetBlock_init (g : rng C)
           (C_in C_out kernel_size stride expansion group : nat)
           (bn : bool) : result (rng C * FBNetBlock) :=
  if bn then Raise AssertionError
  else
    let bias_flag := negb bn in
    c1 <- Conv2d_new g C_in (C_in * expansion) 1 1 0 group bias_flag ;;
    c2 <- Conv2d_new (fst c1) (C_in * expansion) (C_in * expansion) 3
                     stride 1 (C_in * expansion) bias_flag ;;
    c3 <- Conv2d_new (fst c2) (C_in * expansion) C_out 1 1 0 group
                     bias_flag ;;
    let res := (C_in =? C_out) && (stride =? 1) in
    if res then
      Ok (fst c3, mkFBNetBlock (snd c1) (snd c2) (snd c3) res None)
    else if stride =? 2 then
      t <- Conv2d_new (fst c3) C_in C_out 3 2 1 1 true ;;
      Ok (fst t, mkFBNetBlock (snd c1) (snd c2) (snd c3) res (Some (snd t)))
    else if stride =? 1 then
      t <- Conv2d_new (fst c3) C_in C_out 1 1 0 1 true ;;
      Ok (fst t, mkFBNetBlock (snd c1) (snd c2) (snd c3) res (Some (snd t)))
    else Raise ValueError.

Definition apply_conv (c : conv_cfg * list (tensor R)) (x : tensor R)
  : result (tensor R) :=
  conv2d C (fst c) (snd c) x.

Definition apply_relu (x : tensor R) : tensor R :=
  mkTensor (shape x) (map (relu C) (data x)).

(** [self.op(x)] *)
Definition block_op (b : FBNetBlock) (x : tensor R) : result (tensor R) :=
  y1 <- apply_conv (op1 b) x ;;
  y2 <- apply_conv (op2 b) (apply_relu y1) ;;
  apply_conv (op3 b) (apply_relu y2).

(** [FBNetBlock.forward] *)
Definition FBNetBlock_forward (b : FBNetBlock) (x : tensor R)
  : result (tensor R) :=
  if res_flag b then
    y <- block_op b x ;; tadd y x
  else
    y <- block_op b x ;;
    match trans b with
    | Some t => z <- apply_conv t x ;; tadd y z
    | None => Raise AttributeError
    end.

(** The tables of [get_blocks]. *)
Definition _f : list nat := [16; 16; 24; 32; 64; 112; 184; 352; 1984].
Definition _n : list nat := [1; 1; 4; 4; 4; 4; 4; 1; 1].
Definition _s : list nat := [1; 1; 2; 2; 2; 1; 2; 1; 1].
Definition _e : list nat := [1; 1; 3; 6; 1; 1; 3; 6].
Definition _kernel : list nat := [3; 3; 3; 3; 5; 5; 5; 5].
Definition _group : list nat := [1; 2; 1; 1; 1; 2; 1; 1].

(** A block or a convolution as the network sees it: a module without
    [__len__]. *)
Definition module_of_block (b : FBNetBlock) : module R :=
  mkModule (snd (op1 b) ++ snd (op2 b) ++ snd (op3 b) ++
            match trans b with Some t => snd t | None => [] end)
           (fun _ x => FBNetBlock_forward b x) None.

Definition module_of_conv (c : conv_cfg * list (tensor R)) : module R :=
  mkModule (snd c) (fun ps x => conv2d C (fst c) ps x) None.

(** Lines 69-75: the candidates of one position. *)
Fixpoint tmp_block (g : rng C) (c_in c_out stride : nat)
         (b_idxs : list nat) : result (rng C * list (module R)) :=
  match b_idxs with
  | [] => Ok (g, [])
  | b_idx :: rest =>
      expansion <- py_index _e b_idx ;;
      kernel <- py_index _kernel b_idx ;;
      group <- py_index _group b_idx ;;
      blk <- FBNetBlock_init g c_in c_out kernel stride expansion group
                             false ;;
      more <- tmp_block (fst blk) c_in c_out stride rest ;;
      Ok (fst more, module_of_block (snd blk) :: snd more)
  end.

(** Lines 64-79: the [_n[n_idx]] positions of one stage; the state is
    the generator, [stride], [c_in] and [BLOCKS]. *)
Fixpoint stage (reps : nat) (c_out : nat)
         (st : rng C * nat * nat * list (block R))
  : result (rng C * nat * nat * list (block R)) :=
  match reps with
  | 0 => Ok st
  | S reps' =>
      let '(g, stride, c_in, BLOCKS) := st in
      tb <- tmp_block g c_in c_out stride (seq 0 (length _e)) ;;
      stage reps' c_out (fst tb, 1, c_out, BLOCKS ++ [BList (snd tb)])
  end.

(** Lines 60-79: the stages [n_idx]; the state also carries [c_out]. *)
Fixpoint stages (n_idxs : list nat)
         (st : rng C * nat * nat * list (block R))
  : result (rng C * nat * nat * list (block R)) :=
  match n_idxs with
  | [] => Ok st
  | n_idx :: rest =>
      let '(g, c_out0, c_in, BLOCKS) := st in
      c_out <- py_index _f n_idx ;;
      stride <- py_index _s n_idx ;;
      reps <- py_index _n n_idx ;;
      st' <- stage reps c_out (g, stride, c_in, BLOCKS) ;;
      let '(g', _, c_in', BLOCKS') := st' in
      stages rest (g', c_out, c_in', BLOCKS')
  end.

(** [get_blocks()]; [c_out] is unbound if no stage ran (it cannot
    happen with the tables above). *)
Definition get_blocks (g : rng C) : result (rng C * list (block R)) :=
  stem <- Conv2d_new g 3 16 3 2 1 1 true ;;
  st <- stages (firstn 7 (skipn 1 (seq 0 (length _n))))
               (fst stem, 0, 16, [BModule (module_of_conv (snd stem))]) ;;
  let '(g', c_out, _, BLOCKS) := st in
  head <- Conv2d_new g' c_out 1984 1 1 0 1 true ;;
  let BLOCKS' := BLOCKS ++ [BModule (module_of_conv (snd head))] in
  if length BLOCKS' =? 24 then Ok (fst head, BLOCKS')
  else Raise AssertionError.

End Blocks.

(** ** Reference statements

    What the properties below compare the code with. *)

Section Reference.
Context {R : Type} `{Scalar R}.

(** Entry [j] of the sum over [i] of [w_i * out_i], the terms taken in
    the order of [i]. *)
Definition wsum_step (j : nat) (a : R) (wo : R * tensor R) : R :=
  radd a (rmul (fst wo) (nth j (data (snd wo)) r0)).

Definition wsum_at (ws : list R) (outs : list (tensor R)) (j : nat) : R :=
  fold_left (wsum_step j) (combine ws outs) r0.

Definition weighted_sum (s : list nat) (ws : list R) (outs : list (tensor R))
  : tensor R :=
  mkTensor s (map (wsum_at ws outs) (seq 0 (numel s))).


(** The list-valued entries of a block sequence, in order. *)
Definition list_entries (blocks : list (block R)) : list (list (module R)) :=
  flat_map (fun b => match b with BList l => [l] | BModule _ => [] end) blocks.

(** The theta vector made for a list of candidates: one entry per
    candidate, each the initial value. *)
Definition initial_theta (init_theta : R) (cands : list (module R)) : tensor R :=
  mkTensor [length cands] (repeat init_theta (length cands)).

(** A position that [forward] treats as searchable: [len(block) > 1]. *)
Definition searchable (b : block R) : bool :=
  match block_len b with
  | Ok n => 1 <? n
  | Raise _ => false
  end.

Definition count_searchable (bs : list (block R)) : nat :=
  length (filter searchable bs).

End Reference.

Section Schedule.
Context {R : Type} `{Scalar R}.

(** The calls of a search that runs to its end: [warm] passes of
    weight updates without decay, then [total] times a pass of theta
    updates with decay followed by a pass of weight updates without. *)
Definition schedule (wds tds : nat -> list (@batch_t R)) (total warm : nat)
  : list (call_event (@batch_t R)) :=
  flat_map (fun e => map (TrainW false) (wds e)) (seq 0 warm) ++
  flat_map (fun e => map (TrainT true) (tds e) ++
                     map (TrainW false) (wds (warm + e)))
           (seq 0 total).

(** The number of theta updates in it. *)
Definition theta_steps (tds : nat -> list (@batch_t R)) (total : nat) : nat :=
  list_sum (map (fun e => length (tds e)) (seq 0 total)).

(** [t] multiplied [n] times by the decay factor [d]. *)
Definition decayed (n : nat) (d t : R) : R :=
  Nat.iter n (fun a => rmul a d) t.

(** A computation that makes the calls [evs], or a first part of them
    when it raises, and multiplies the temperature [n] times when it
    returns. *)
Definition runs {O : optim_lib R} {A} (m : TM O A)
           (evs : list (call_event (@batch_t R)))
           (n : nat) : Prop :=
  forall tr tr' r,
    m tr = (tr', r) ->
    _tem_decay tr' = _tem_decay tr /\
    (exists pre post, evs = pre ++ post /\ calls tr' = calls tr ++ pre) /\
    (forall a, r = Ok a ->
               calls tr' = calls tr ++ evs /\
               temp tr' = decayed n (_tem_decay tr) (temp tr)).

(** What no step of the search touches: the block sequence, the Mixed
    Operations and the latency table of the network, the tensors each
    optimiser holds, and the decay factor. *)
Definition same_structure {O : optim_lib R} (tr0 tr : Trainer O) : Prop :=
  _blocks (_mod tr) = _blocks (_mod tr0) /\
  _ops (_mod tr) = _ops (_mod tr0) /\
  _speed (_mod tr) = _speed (_mod tr0) /\
  tr_w tr = tr_w tr0 /\ tr_theta tr = tr_theta tr0 /\
  _tem_decay tr = _tem_decay tr0.

(** A computation that keeps the structure, however it ends. *)
Definition keeps {O : optim_lib R} {A} (m : TM O A) : Prop :=
  forall tr tr' r, m tr = (tr', r) -> same_structure tr tr'.

(** The text of the theta file for the value lists [res]: every list
    printed with single spaces between its values, followed by a slash and
    the letter n. *)
Definition theta_file (O : optim_lib R) (res : list (list (tensor R)))
  : string :=
  fold_right
    (fun l acc => ((join_space (map (str_tensor O) l) ++ "/n") ++ acc)%string)
    EmptyString res.

End Schedule.


(** The newline character, and strings that hold none. *)
Definition newline : ascii := ascii_of_nat 10.

Definition no_newline (s : string) : Prop :=
  ~ In newline (list_ascii_of_string s).

(** ** Reference statements for the further properties *)

Section Reference2.
Context {R : Type} `{Scalar R}.

(** What an entry of a block sequence is: a module, or a list of so many
    candidates. *)
Definition block_kind (b : block R) : option nat :=
  match b with
  | BModule _ => None
  | BList l => Some (length l)
  end.

(** The running value of [sum]: the start value, or a well-formed tensor
    of shape [s]. *)
Definition sum_value (s : list nat) (v : pyval R) : Prop :=
  match v with
  | PInt z => z = 0%Z
  | PTensor a => shape a = s /\ wf_tensor a
  end.

End Reference2.

(** A cost as it stands in a row of the latency table: not empty and
    free of whitespace.  A run of whitespace, such as the end of a line. *)
Definition clean_token (s : string) : Prop :=
  s <> EmptyString /\
  Forall (fun c => is_space c = false) (list_ascii_of_string s).

Definition blank (s : string) : Prop :=
  Forall (fun c => is_space c = true) (list_ascii_of_string s).

(** ** Concrete instances over the integers *)

Module Examples.

(** A layer returning its input, and one doubling every entry. *)
Definition ident_module : module Z := mkModule [] (fun _ x => Ok x) None.

Definition double_module : module Z :=
  mkModule [] (fun _ x => Ok (mkTensor (shape x) (map (Z.mul 2) (data x))))
           None.

Definition x0 : tensor Z := mkTensor [2] [3; 4]%Z.


(** [float(s)] restricted to non-empty strings of decimal digits. *)
Fixpoint parse_digits (acc : Z) (s : string) : result Z :=
  match s with
  | EmptyString => Ok acc
  | String c s' =>
      let n := nat_of_ascii c in
      if (48 <=? n) && (n <=? 57)
      then parse_digits (10 * acc + Z.of_nat (n - 48))%Z s'
      else Raise ValueError
  end.

Definition parse_Z (s : string) : result Z :=
  match s with
  | EmptyString => Raise ValueError
  | _ => parse_digits 0%Z s
  end.

(** Kernels that do as little as possible: the relaxed sample is the
    broadcast theta itself, pooling and the classifier return their
    input, the cross-entropy is 0, [torch.tensor] accepts one-element
    tensors only. *)
Definition torch_Z : torch_lib Z :=
  mkTorch
    (fun t _ => Ok t)
    parse_Z
    (fun l =>
       if forallb (fun t => length (data t) =? 1) l
       then Ok (mkTensor [length l] (flat_map (@data Z) l))
       else Raise ValueError)
    (fun d => Ok d)
    (fun _ _ => Ok (scalar_t 0%Z))
    (fun a _ => a)
    (fun _ _ _ => Ok 0%Z)
    (fun _ _ => ident_module).

(** Convolutions without weights that return their input. *)
Definition conv_Z : conv_lib Z :=
  mkConvLib unit (fun g _ => (g, [])) (fun _ _ x => Ok x)
            (fun a => a).

(** Convolutions that own one weight tensor each, and a classifier
    that owns a weight of shape [n_out; n_in] and a bias of shape [n_out],
    as [nn.Linear(n_in, n_out)] does. *)
Definition conv_W : conv_lib Z :=
  mkConvLib unit (fun g _ => (g, [scalar_t 1%Z])) (fun _ _ x => Ok x)
            (fun a => a).

Definition torch_W : torch_lib Z :=
  mkTorch (gumbel_softmax torch_Z) (parse_float torch_Z)
          (tensor_of_tensors torch_Z) (avg_pool2d torch_Z)
          (cross_entropy torch_Z) (rpow torch_Z) (accuracy torch_Z)
          (fun n_in n_out =>
             mkModule [mkTensor [n_out; n_in] (repeat 0%Z (n_out * n_in));
                       mkTensor [n_out] (repeat 0%Z n_out)]
                      (fun _ x => Ok x) None).

Definition catalog_W : list (block Z) :=
  match get_blocks conv_W tt with
  | Ok gb => snd gb
  | Raise _ => []
  end.

(** The block sequence of [get_blocks()]. *)
Definition catalog : list (block Z) :=
  match get_blocks conv_Z tt with
  | Ok gb => snd gb
  | Raise _ => []
  end.

Definition speed_line : string :=
  ("1 2 3 4 5 6 7 8" ++ String (ascii_of_nat 10) EmptyString)%string.

(** A latency table with one more row than there are positions. *)
Definition speed_lines : list string := repeat speed_line 23.

Definition input0 : tensor Z := mkTensor [1; 8] [1; 2; 3; 4; 5; 6; 7; 8]%Z.

(** A latency table whose row 0 differs from the others. *)
Definition nines_line : string :=
  ("9 9 9 9 9 9 9 9" ++ String (ascii_of_nat 10) EmptyString)%string.

Definition marked_lines : list string := nines_line :: repeat speed_line 22.

(** Optimisers over the integers: SGD adds 1 to every entry it updates,
    Adam adds 2; gradients, optimiser states and meters carry nothing; a
    device is there and reports never fail. *)
Definition optim_Z : optim_lib Z :=
  mkOptim unit unit unit
    tt (fun _ g => g) (fun _ _ g => g)
    (fun _ _ _ => tt) (fun _ _ => tt)
    (fun _ _ _ v => mkTensor (shape v) (map (Z.add 1) (data v)))
    (fun st _ => st)
    (fun _ _ _ v => mkTensor (shape v) (map (Z.add 2) (data v)))
    (fun st _ => st)
    (fun a n => Z.div a (Z.of_nat n))
    (fun _ => tt) (fun m _ _ => m)
    true (fun _ => Ok tt)
    (fun t => match data t with
              | [z] => NilZero.string_of_int (Z.to_int z)
              | _ => "tensor"%string
              end)
    Z.eqb.

(** A network of one fixed layer, on which [forward] returns; a trainer
    over it starting at temperature 5 with decay factor 2; a weight loader
    of one batch and a theta loader of two. *)
Definition small_net : FBNet Z :=
  mkFBNet 1%Z 1%Z [] [] [BModule ident_module] [] ident_module
          None None None None None.

Definition small_trainer : Trainer optim_Z :=
  (new_trainer optim_Z small_net [] 0 0 0 0 0 5 2)%Z.

Definition wds0 : nat -> list (@batch_t Z) := fun _ => [(input0, [0%Z])].

Definition tds0 : nat -> list (@batch_t Z) :=
  fun _ => [(input0, [1%Z]); (input0, [2%Z])].

End Examples.

(** ** More concrete instances *)

Module MoreExamples.

Definition x2 : tensor Z := mkTensor [1; 2] [3; 4]%Z.

(** A network with one searchable position of two candidates and two
    Mixed Operations, so that the lookup at index 1 finds one. *)
Definition two_net : FBNet Z :=
  mkFBNet 1%Z 1%Z [mkTensor [2] [1; 1]%Z]
          [MixedOp_init [Examples.ident_module];
           MixedOp_init [Examples.double_module; Examples.ident_module]]
          [BModule Examples.ident_module;
           BList [Examples.ident_module; Examples.double_module]]
          [Examples.nines_line; Examples.speed_line]
          Examples.ident_module None None None None None.

(** A network whose only list-valued entry has a single candidate. *)
Definition short_net : FBNet Z :=
  mkFBNet 1%Z 1%Z [mkTensor [1] [1]%Z]
          [MixedOp_init [Examples.ident_module]]
          [BModule Examples.ident_module; BList [Examples.ident_module]]
          [Examples.speed_line]
          Examples.ident_module None None None None None.

(** A layer that raises on every input. *)
Definition failing_module : module Z :=
  mkModule [] (fun _ _ => Raise RuntimeError) None.

(** A network of one fixed layer with one theta vector and a classifier
    that owns two tensors, and a trainer over it whose weight optimiser
    holds the two tensors of the classifier. *)
Definition w_net : FBNet Z :=
  mkFBNet 1%Z 1%Z [mkTensor [2] [1; 1]%Z] []
          [BModule Examples.ident_module] []
          (mkModule [scalar_t 1%Z; scalar_t 0%Z] (fun _ x => Ok x) None)
          None None None None None.

Definition w_trainer : Trainer Examples.optim_Z :=
  (new_trainer Examples.optim_Z w_net [NClassifier 0; NClassifier 1]
               0 0 0 0 0 5 2)%Z.

(** A network whose theta vector and classifier tensors hold one entry
    each, so that every comparison between them has a truth value. *)
Definition scalar_net : FBNet Z :=
  mkFBNet 1%Z 1%Z [mkTensor [1] [7]%Z] []
          [BModule Examples.ident_module] []
          (mkModule [scalar_t 1%Z; scalar_t 0%Z] (fun _ x => Ok x) None)
          None None None None None.

End MoreExamples.

(** * Properties *)

(** ** The error monad *)

Lemma bind_ok {A B} (m : result A) (k : A -> result B) (b : B) :
  bind m k = Ok b -> exists a, m = Ok a /\ k a = Ok b.
Proof.
  destruct m as [a | e]; simpl; intros Hk.
  - exists a; split; [reflexivity | exact Hk].
  - discriminate Hk.
Qed.

Lemma py_index_ok {A} (l : list A) (i : nat) (a : A) :
  py_index l i = Ok a -> i < length l.
Proof.
  unfold py_index. destruct (nth_error l i) eqn:E; intros Hk; [| discriminate].
  apply nth_error_Some. congruence.
Qed.


(** ** Tensors *)

Lemma Z_ScalarLaws : ScalarLaws Z.
Proof.
  constructor; intros a; unfold radd, rmul, r0, r1; simpl.
  - reflexivity.
  - apply Z.add_0_r.
  - destruct a; reflexivity.
  - reflexivity.
Qed.

Section TensorFacts.
Context {R : Type} `{Scalar R}.

Lemma chunks_length (n k : nat) (d : list R) :
  length (chunks n k d) = n.
Proof.
  revert d; induction n as [| n IH]; intros d; simpl; [reflexivity |].
  now rewrite IH.
Qed.

Lemma concat_chunks (n k : nat) (d : list R) :
  length d = n * k -> concat (chunks n k d) = d.
Proof.
  revert d; induction n as [| n IH]; intros d Hd; simpl in *.
  - destruct d; [reflexivity | discriminate].
  - rewrite IH.
    + apply firstn_skipn.
    + rewrite length_skipn. lia.
Qed.

Lemma chunks_all_length (n k : nat) (d : list R) :
  length d = n * k -> Forall (fun c => length c = k) (chunks n k d).
Proof.
  revert d; induction n as [| n IH]; intros d Hd; simpl in *; constructor.
  - rewrite length_firstn. lia.
  - apply IH. rewrite length_skipn. lia.
Qed.

Lemma chunks_singletons (l : list R) :
  chunks (length l) 1 l = map (fun a => [a]) l.
Proof.
  induction l as [| a l IH]; simpl; [reflexivity |].
  now rewrite IH.
Qed.

Lemma concat_repeat_repeat (w : R) (p b : nat) :
  concat (repeat (repeat w p) b) = repeat w (b * p).
Proof.
  induction b as [| b IH]; simpl; [reflexivity |].
  rewrite IH. symmetry. apply repeat_app.
Qed.

Lemma bshape_refl (l : list nat) : bshape l l = Some l.
Proof.
  induction l as [| a l IH]; simpl; [reflexivity |].
  rewrite IH, Nat.eqb_refl. reflexivity.
Qed.

Lemma broadcast_shapes_refl (s : list nat) : broadcast_shapes s s = Some s.
Proof.
  unfold broadcast_shapes. rewrite bshape_refl. simpl.
  now rewrite rev_involutive.
Qed.

Lemma broadcast_shapes_scalar (s : list nat) : broadcast_shapes [] s = Some s.
Proof.
  unfold broadcast_shapes. simpl. now rewrite rev_involutive.
Qed.

Lemma expand_scalar (w : R) (s : list nat) :
  expand [] s [w] = repeat w (numel s).
Proof.
  induction s as [| b s IH]; simpl; [reflexivity |].
  rewrite IH. apply concat_repeat_repeat.
Qed.

Lemma map_id_chunks (f : list R -> list R) (n k : nat) (d : list R) :
  (forall c, length c = k -> f c = c) ->
  length d = n * k ->
  map f (chunks n k d) = chunks n k d.
Proof.
  intros Hf Hd.
  pose proof (chunks_all_length n k d Hd) as Hall.
  induction Hall as [| c cs Hc _ IH]; simpl; [reflexivity |].
  now rewrite Hf, IH.
Qed.

Lemma expand_same (s : list nat) :
  forall d : list R, length d = numel s -> expand s s d = d.
Proof.
  induction s as [| b s IH]; intros d Hd; [reflexivity |].
  cbn [expand].
  destruct (Nat.ltb_spec (length (b :: s)) (S (length s))) as [Hlt | _];
    [simpl in Hlt; lia |].
  rewrite Nat.eqb_refl.
  rewrite map_id_chunks; [apply concat_chunks; exact Hd | exact IH | exact Hd].
Qed.

End TensorFacts.


(** ** MixedOp *)

Section MixedOpFacts.
Context {R : Type} `{Scalar R}.

Lemma MixedOp_init_ops (l : list (module R)) : mo_ops (MixedOp_init l) = l.
Proof.
  unfold MixedOp_init; simpl.
  assert (Hgen : forall acc : list (module R),
             fold_left (fun ops op => ops ++ [op]) l acc = acc ++ l).
  { induction l as [| a l IH]; intros acc; simpl.
    - now rewrite app_nil_r.
    - rewrite IH, <- app_assoc. reflexivity. }
  apply Hgen.
Qed.

Lemma tensor_iter_vector (ws : list R) :
  tensor_iter (tensor_of_floats ws) = Ok (map scalar_t ws).
Proof.
  unfold tensor_iter, tensor_of_floats; simpl.
  rewrite chunks_singletons, map_map. reflexivity.
Qed.

Lemma map2_repeat (f : R -> R -> R) (w : R) (d : list R) :
  map2 f (repeat w (length d)) d = map (f w) d.
Proof.
  induction d as [| a d IH]; simpl; [reflexivity | now rewrite IH].
Qed.

Lemma map2_length (f : R -> R -> R) (a b : list R) :
  length a = length b -> length (map2 f a b) = length a.
Proof.
  revert b; induction a as [| x a IH]; intros [| y b] Hl; simpl in *;
    try reflexivity; try discriminate.
  rewrite IH; [reflexivity | lia].
Qed.

Lemma nth_map2 (f : R -> R -> R) (a b : list R) (j : nat) (d : R) :
  length a = length b -> j < length a ->
  nth j (map2 f a b) d = f (nth j a d) (nth j b d).
Proof.
  revert b j; induction a as [| x a IH]; intros [| y b] j Hl Hj;
    simpl in *; try lia.
  destruct j as [| j]; [reflexivity |].
  apply IH; lia.
Qed.

Lemma map_nth_seq (l : list R) (d : R) :
  map (fun j => nth j l d) (seq 0 (length l)) = l.
Proof.
  apply nth_ext with (d := d) (d' := d).
  - now rewrite length_map, length_seq.
  - intros n Hn. rewrite length_map, length_seq in Hn.
    rewrite nth_indep with (d' := nth 0 l d)
      by (now rewrite length_map, length_seq).
    rewrite map_nth with (f := fun j => nth j l d) (d := 0).
    rewrite seq_nth by exact Hn. reflexivity.
Qed.

Lemma tmul_scalar (w : R) (y : tensor R) :
  wf_tensor y ->
  tmul (scalar_t w) y = Ok (mkTensor (shape y) (map (rmul w) (data y))).
Proof.
  unfold wf_tensor, tmul, tbin, scalar_t; intros Hwf; cbn [shape data].
  rewrite broadcast_shapes_scalar, expand_scalar, expand_same by exact Hwf.
  rewrite <- Hwf, map2_repeat. reflexivity.
Qed.

Lemma tadd_same (a b : tensor R) :
  shape a = shape b -> wf_tensor a -> wf_tensor b ->
  tadd a b = Ok (mkTensor (shape a) (map2 radd (data a) (data b))).
Proof.
  unfold wf_tensor, tadd, tbin; intros Hs Ha Hb.
  rewrite <- Hs, broadcast_shapes_refl.
  rewrite !expand_same; [reflexivity | congruence | exact Ha].
Qed.

Lemma sum_terms_tensor (x : tensor R) (s : list nat) :
  forall (ops : list (module R)) (outs : list (tensor R)),
    Forall2 (fun op o => call_module op (PTensor x) = Ok o) ops outs ->
    Forall (fun o => shape o = s /\ wf_tensor o) outs ->
    forall (ws : list R) (accd : list R),
      length accd = numel s ->
      sum_terms (PTensor x) (PTensor (mkTensor s accd)) (map scalar_t ws) ops =
      Ok (PTensor (mkTensor s
            (map (fun j => fold_left (wsum_step j) (combine ws outs) (nth j accd r0))
                 (seq 0 (numel s))))).
Proof.
  induction 1 as [| op o ops outs Hcall _ IH]; intros Hall ws accd Hacc.
  - assert (Hc : combine ws (@nil (tensor R)) = []) by (destruct ws; reflexivity).
    rewrite Hc. simpl fold_left.
    rewrite <- Hacc, map_nth_seq.
    destruct ws; reflexivity.
  - destruct ws as [| w ws].
    + simpl. rewrite <- Hacc, map_nth_seq. reflexivity.
    + inversion Hall as [| ? ? [Hs Hwf] Hall']; subst.
      cbn [map sum_terms]. rewrite Hcall. cbn [bind].
      rewrite tmul_scalar by exact Hwf. cbn [bind py_add].
      rewrite tadd_same; [| reflexivity | exact Hacc |].
      2:{ unfold wf_tensor; cbn [shape data]. rewrite length_map. exact Hwf. }
      cbn [bind shape data].
      rewrite IH; [| exact Hall' |].
      2:{ rewrite map2_length; [exact Hacc |].
          rewrite length_map, Hacc. symmetry; exact Hwf. }
      do 3 f_equal. apply map_ext_in. intros j Hj.
      apply in_seq in Hj. cbn [combine fold_left]. f_equal.
      unfold wsum_step. cbn [fst snd].
      rewrite nth_map2.
      * f_equal. rewrite nth_indep with (d' := rmul w r0)
          by (rewrite length_map; unfold wf_tensor in Hwf; lia).
        apply map_nth.
      * rewrite length_map, Hacc. symmetry; exact Hwf.
      * lia.
Qed.

(** [zip] never looks at the candidates beyond the last weight. *)
Lemma sum_terms_firstn (x : pyval R) :
  forall (ws : list (tensor R)) (ops : list (module R)) (acc : pyval R),
    sum_terms x acc ws ops = sum_terms x acc ws (firstn (length ws) ops).
Proof.
  induction ws as [| w ws IH]; intros ops acc.
  - destruct ops; reflexivity.
  - destruct ops as [| op ops]; [reflexivity |].
    cbn [length firstn sum_terms].
    destruct (call_module op x) as [y |]; [| reflexivity].
    cbn [bind]. destruct (tmul w y) as [t |]; [| reflexivity].
    cbn [bind]. destruct (py_add acc t) as [acc' |]; [| reflexivity].
    cbn [bind]. apply IH.
Qed.

Lemma nth_scaled (w : R) (d : list R) (j : nat) :
  ScalarLaws R -> j < length d ->
  nth j (map (fun a => radd a r0) (map (rmul w) d)) r0 =
  wsum_step j r0 (w, mkTensor (@nil nat) d).
Proof.
  intros L Hj. unfold wsum_step; cbn [fst snd data].
  rewrite radd_0_l, map_map.
  rewrite nth_indep with (d' := radd (rmul w r0) r0)
    by (now rewrite length_map).
  rewrite map_nth with (f := fun a => radd (rmul w a) r0).
  apply radd_0_r.
Qed.

(** What [MixedOp.forward] returns for a weight vector of any length:
    the candidates that [zip] pairs with a weight are called, and their
    weighted outputs are summed. *)
Lemma MixedOp_forward_general (ops : list (module R)) (x : tensor R)
      (ws : list R) (outs : list (tensor R)) (s : list nat) :
  ScalarLaws R ->
  Forall2 (fun op o => call_module op (PTensor x) = Ok o)
          (firstn (length ws) ops) outs ->
  Forall (fun o => shape o = s /\ wf_tensor o) outs ->
  MixedOp_forward (MixedOp_init ops) (PTensor x) (tensor_of_floats ws) =
  Ok (match outs with
      | [] => PInt 0
      | _ => PTensor (weighted_sum s ws outs)
      end).
Proof.
  intros L Hcalls Hall.
  unfold MixedOp_forward.
  rewrite MixedOp_init_ops, tensor_iter_vector. cbn [bind].
  rewrite sum_terms_firstn, length_map.
  remember (firstn (length ws) ops) as fops eqn:Hf.
  destruct Hcalls as [| op o rest outs Hcall Hrest].
  - destruct ws; reflexivity.
  - destruct ws as [| w ws].
    + discriminate Hf.
    + inversion Hall as [| ? ? [Hs Hwf] Hall']; subst.
      cbn [map sum_terms]. rewrite Hcall. cbn [bind].
      rewrite tmul_scalar by exact Hwf. cbn [bind py_add shape data].
      rewrite (sum_terms_tensor x (shape o) rest outs Hrest Hall').
      2:{ rewrite !length_map. exact Hwf. }
      unfold weighted_sum. do 3 f_equal.
      apply map_ext_in. intros j Hj. apply in_seq in Hj.
      unfold wsum_at. cbn [combine fold_left]. f_equal.
      rewrite nth_scaled; [reflexivity | exact L |].
      unfold wf_tensor in Hwf. lia.
Qed.



End MixedOpFacts.



(** C5, as stated, fails: three weights against one candidate, and one
    weight against two candidates, both return a tensor. *)
Lemma MixedOp_forward_length_mismatch_returns :
  length [5; 7; 9]%Z <> length [Examples.ident_module] /\
  MixedOp_forward (MixedOp_init [Examples.ident_module])
                  (PTensor Examples.x0) (tensor_of_floats [5; 7; 9]%Z) =
  Ok (PTensor (mkTensor [2] [15; 20]%Z)) /\
  length [5]%Z <> length [Examples.ident_module; Examples.double_module] /\
  MixedOp_forward
    (MixedOp_init [Examples.ident_module; Examples.double_module])
    (PTensor Examples.x0) (tensor_of_floats [5]%Z) =
  Ok (PTensor (mkTensor [2] [15; 20]%Z)).
Proof.
  repeat split; try discriminate; reflexivity.
Qed.

(** C5, amended.  [MixedOp.forward] does not compare the length of the
    weight vector with the number of candidates: [zip] pairs weights and
    candidates up to the shorter of the two, and when the candidates so
    paired return tensors of one shape [s] the call returns their weighted
    sum (the integer 0 when nothing is paired). *)
Theorem MixedOp_forward_truncates {R : Type} `{Scalar R}
        (L : ScalarLaws R) (ops : list (module R)) (x : tensor R)
        (ws : list R) (outs : list (tensor R)) (s : list nat) :
  Forall2 (fun op o => call_module op (PTensor x) = Ok o)
          (firstn (length ws) ops) outs ->
  Forall (fun o => shape o = s /\ wf_tensor o) outs ->
  length outs = Nat.min (length ws) (length ops) /\
  MixedOp_forward (MixedOp_init ops) (PTensor x) (tensor_of_floats ws) =
  Ok (match outs with
      | [] => PInt 0
      | _ => PTensor (weighted_sum s ws outs)
      end).
Proof.
  intros Hcalls Hall. split.
  - rewrite <- (Forall2_length Hcalls). apply length_firstn.
  - apply MixedOp_forward_general; assumption.
Qed.

Lemma MixedOp_forward_truncates_witness :
  length [Examples.x0] = Nat.min 3 1 /\
  MixedOp_forward (MixedOp_init [Examples.ident_module])
                  (PTensor Examples.x0) (tensor_of_floats [5; 7; 9]%Z) =
  Ok (PTensor (mkTensor [2] [15; 20]%Z)).
Proof.
  assert (Hcalls :
    Forall2 (fun op o => call_module op (PTensor Examples.x0) = Ok o)
            (firstn (length [5; 7; 9]%Z) [Examples.ident_module])
            [Examples.x0])
    by (repeat constructor).
  assert (Hall :
    Forall (fun o : tensor Z => shape o = [2] /\ wf_tensor o) [Examples.x0])
    by (repeat constructor).
  exact (MixedOp_forward_truncates Z_ScalarLaws [Examples.ident_module]
           Examples.x0 [5; 7; 9]%Z [Examples.x0] [2] Hcalls Hall).
Defined.

(** ** Construction of the network *)

Section InitFacts.
Context {R : Type} `{Scalar R} (T : torch_lib R).

Lemma constant_ones (n : nat) (v : R) :
  constant_ (ones n) v = mkTensor [n] (repeat v n).
Proof.
  unfold constant_, ones; simpl. f_equal.
  induction n as [| n IH]; simpl; [reflexivity | now rewrite IH].
Qed.

Lemma init_loop_from (v : R) (blocks : list (block R)) :
  forall (th : list (tensor R)) (ops : list (MixedOp R)),
    fold_left
      (fun st b =>
         match b with
         | BList l =>
             (fst st ++ [constant_ (ones (length l)) v],
              snd st ++ [MixedOp_init l])
         | BModule _ => st
         end)
      blocks (th, ops) =
    (th ++ map (initial_theta v) (list_entries blocks),
     ops ++ map MixedOp_init (list_entries blocks)).
Proof.
  induction blocks as [| b blocks IH]; intros th ops; simpl.
  - now rewrite !app_nil_r.
  - destruct b as [m | l]; simpl.
    + apply IH.
    + rewrite IH, constant_ones, <- !app_assoc. reflexivity.
Qed.

Lemma init_loop_spec (v : R) (blocks : list (block R)) :
  init_loop v blocks =
  (map (initial_theta v) (list_entries blocks),
   map MixedOp_init (list_entries blocks)).
Proof.
  unfold init_loop. now rewrite init_loop_from.
Qed.

End InitFacts.

(** C6.  Construction raises [AssertionError] whenever the number of
    list-valued entries of the block sequence is not 22.  When it is 22,
    construction passes the assertion having made, for each list-valued
    entry in order, one theta vector filled with the initial value and one
    Mixed Operation over that entry's candidates; it then returns the
    network as soon as the latency file has been read. *)
Theorem FBNet_init_count {R : Type} `{Scalar R} (T : torch_lib R)
        (num_classes : nat) (blocks : list (block R)) (init_theta : R)
        (speed_f : result (list string)) (alpha beta : R) :
  (length (list_entries blocks) <> 22 ->
   FBNet_init T num_classes blocks init_theta speed_f alpha beta =
   Raise AssertionError) /\
  (length (list_entries blocks) = 22 ->
   forall lines, speed_f = Ok lines ->
   exists net,
     FBNet_init T num_classes blocks init_theta speed_f alpha beta = Ok net /\
     theta net = map (initial_theta init_theta) (list_entries blocks) /\
     _ops net = map MixedOp_init (list_entries blocks) /\
     length (theta net) = 22 /\ length (_ops net) = 22 /\
     _blocks net = blocks /\ _speed net = lines).
Proof.
  unfold FBNet_init. rewrite init_loop_spec. cbn [fst snd].
  rewrite length_map. split.
  - intros Hne. apply Nat.eqb_neq in Hne. now rewrite Hne.
  - intros Heq lines ->. rewrite Heq. cbn [Nat.eqb bind].
    eexists. split; [reflexivity |]. cbn.
    rewrite !length_map. repeat split; assumption.
Qed.


(** ** The forward pass *)

Ltac bind_inv H :=
  let a := fresh "v" in
  let Ha := fresh "Hv" in
  apply bind_ok in H; destruct H as (a & Ha & H).

Section ForwardFacts.
Context {R : Type} `{Scalar R} (T : torch_lib R).


Lemma loop_body_ok (net : FBNet R) (B : nat) (t : R) (b : block R)
      (st st' : loop_state R) :
  loop_body T net B t b st = Ok st' ->
  (searchable b = true /\ searchable_step T net B t st = Ok st') \/
  (searchable b = false /\ is_list b = false /\
   ls_theta_idx st' = ls_theta_idx st).
Proof.
  unfold loop_body, searchable. intros Hb.
  destruct (block_len b) as [n |]; [| discriminate Hb].
  cbn [bind] in Hb. destruct (1 <? n).
  - left. split; [reflexivity | exact Hb].
  - right. bind_inv Hb. injection Hb as <-.
    destruct b as [m | l]; [| discriminate Hv].
    repeat split.
Qed.




Lemma loop_body_searchable (net : FBNet R) (B : nat) (t : R) (b : block R)
      (st : loop_state R) :
  searchable b = true ->
  loop_body T net B t b st = searchable_step T net B t st.
Proof.
  unfold loop_body, searchable.
  destruct (block_len b) as [n |]; [| discriminate].
  cbn [bind]. intros ->. reflexivity.
Qed.


End ForwardFacts.


Lemma is_ok_inv {A} (r : result A) : is_ok r = true -> exists a, r = Ok a.
Proof.
  destruct r as [a | e]; [exists a; reflexivity | discriminate].
Qed.

(** Construction succeeds on the block sequence of [get_blocks()]. *)
Lemma catalog_net_built :
  is_ok (FBNet_init Examples.torch_Z 10 Examples.catalog 1%Z
                    (Ok Examples.speed_lines) 1%Z 1%Z) = true.
Proof. vm_compute. reflexivity. Qed.

Lemma marked_net_built :
  is_ok (FBNet_init Examples.torch_Z 10 Examples.catalog 1%Z
                    (Ok Examples.marked_lines) 1%Z 1%Z) = true.
Proof. vm_compute. reflexivity. Qed.


(** C1.  On the network built from the block sequence of [get_blocks()]
    and a latency table of 23 rows, [forward] returns no loss: it raises
    [IndexError].  The latency term appended at the first searchable
    position is the selection weights (all 1 here) times the sum 36 of the
    whole row, one entry per candidate, not the single sum of the products
    of weights and costs. *)
Lemma forward_catalog_raises :
  exists net,
    FBNet_init Examples.torch_Z 10 Examples.catalog 1%Z
               (Ok Examples.speed_lines) 1%Z 1%Z = Ok net /\
    forward Examples.torch_Z net Examples.input0 [0%Z] 5%Z = Raise IndexError /\
    option_map (@ls_lat Z)
      (match searchable_step Examples.torch_Z net 1 5%Z
               (mkLoop (PTensor Examples.input0) 0 []) with
       | Ok st => Some st
       | Raise _ => None
       end) =
    Some [mkTensor [1; 8] [36; 36; 36; 36; 36; 36; 36; 36]%Z].
Proof.
  assert (Hf : match (FBNet_init Examples.torch_Z 10 Examples.catalog 1%Z
                    (Ok Examples.speed_lines) 1%Z 1%Z) with
               | Ok net =>
                   forward Examples.torch_Z net Examples.input0 [0%Z] 5%Z
               | Raise e => Raise e
               end = Raise IndexError) by (vm_compute; reflexivity).
  assert (Hl : match (FBNet_init Examples.torch_Z 10 Examples.catalog 1%Z
                    (Ok Examples.speed_lines) 1%Z 1%Z) with
               | Ok net =>
                   option_map (@ls_lat Z)
      (match searchable_step Examples.torch_Z net 1 5%Z
               (mkLoop (PTensor Examples.input0) 0 []) with
       | Ok st => Some st
       | Raise _ => None
       end)
               | Raise e => None
               end = Some [mkTensor [1; 8] [36; 36; 36; 36; 36; 36; 36; 36]%Z])
    by (vm_compute; reflexivity).
  destruct (is_ok_inv _ catalog_net_built) as [net E].
  rewrite E in Hf, Hl.
  exists net. repeat split; assumption.
Qed.

(** C2.  At the first searchable position the row read is row 1 of the
    latency table, not row 0: with row 0 holding eight 9s and row 1 the
    costs 1 to 8, the latency term carries 36, the sum of row 1. *)
Lemma first_position_reads_row_one :
  exists net,
    FBNet_init Examples.torch_Z 10 Examples.catalog 1%Z
               (Ok Examples.marked_lines) 1%Z 1%Z = Ok net /\
    nth_error (_speed net) 0 = Some Examples.nines_line /\
    nth_error (_speed net) 1 = Some Examples.speed_line /\
    option_map (@ls_lat Z)
      (match searchable_step Examples.torch_Z net 1 5%Z
               (mkLoop (PTensor Examples.input0) 0 []) with
       | Ok st => Some st
       | Raise _ => None
       end) =
    Some [mkTensor [1; 8] [36; 36; 36; 36; 36; 36; 36; 36]%Z].
Proof.
  assert (Hs : match (FBNet_init Examples.torch_Z 10 Examples.catalog 1%Z
                    (Ok Examples.marked_lines) 1%Z 1%Z) with
               | Ok net => (nth_error (_speed net) 0, nth_error (_speed net) 1)
               | Raise e => (None, None)
               end = (Some Examples.nines_line, Some Examples.speed_line))
    by (vm_compute; reflexivity).
  assert (Hl : match (FBNet_init Examples.torch_Z 10 Examples.catalog 1%Z
                    (Ok Examples.marked_lines) 1%Z 1%Z) with
               | Ok net =>
                   option_map (@ls_lat Z)
      (match searchable_step Examples.torch_Z net 1 5%Z
               (mkLoop (PTensor Examples.input0) 0 []) with
       | Ok st => Some st
       | Raise _ => None
       end)
               | Raise e => None
               end = Some [mkTensor [1; 8] [36; 36; 36; 36; 36; 36; 36; 36]%Z])
    by (vm_compute; reflexivity).
  destruct (is_ok_inv _ marked_net_built) as [net E].
  rewrite E in Hs, Hl. injection Hs as H0 H1.
  exists net. repeat split; assumption.
Qed.

Lemma FBNet_init_count_witness :
  exists net,
    FBNet_init Examples.torch_Z 10 Examples.catalog 1%Z
               (Ok Examples.speed_lines) 1%Z 1%Z = Ok net /\
    length (theta net) = 22 /\ length (_ops net) = 22.
Proof.
  assert (Hlen : length (list_entries Examples.catalog) = 22)
    by (vm_compute; reflexivity).
  destruct (proj2 (FBNet_init_count Examples.torch_Z 10 Examples.catalog 1%Z
                     (Ok Examples.speed_lines) 1%Z 1%Z)
                  Hlen Examples.speed_lines eq_refl)
    as (net & Hnet & _ & _ & Hth & Hops & _).
  exists net. repeat split; assumption.
Defined.

(** ** blocks.py *)

(** C10.  [FBNetBlock.__init__] never looks at [kernel_size]: for the
    same generator state and the same remaining arguments, two kernel
    sizes give the same outcome (the same block with the same weights, or
    the same exception), hence blocks computing the same function; and the
    depthwise convolution of every block built has kernel size 3. *)
Theorem FBNetBlock_kernel_size_unused {R : Type} `{Scalar R}
        (C : conv_lib R) (g : rng C)
        (C_in C_out k1 k2 stride expansion group : nat) (bn : bool) :
  FBNetBlock_init C g C_in C_out k1 stride expansion group bn =
  FBNetBlock_init C g C_in C_out k2 stride expansion group bn /\
  (forall g1 b1 g2 b2,
      FBNetBlock_init C g C_in C_out k1 stride expansion group bn
        = Ok (g1, b1) ->
      FBNetBlock_init C g C_in C_out k2 stride expansion group bn
        = Ok (g2, b2) ->
      forall x, FBNetBlock_forward C b1 x = FBNetBlock_forward C b2 x) /\
  (forall g1 b1,
      FBNetBlock_init C g C_in C_out k1 stride expansion group bn
        = Ok (g1, b1) ->
      kernel_size (fst (op2 b1)) = 3).
Proof.
  split; [reflexivity |]. split.
  - intros g1 b1 g2 b2 H1 H2 x.
    assert (Hsame : Ok (g1, b1) = Ok (g2, b2)) by (rewrite <- H1; exact H2).
    injection Hsame as _ ->. reflexivity.
  - intros g1 b1. unfold FBNetBlock_init.
    destruct bn; [discriminate |].
    intros Hi. bind_inv Hi. bind_inv Hi. bind_inv Hi.
    assert (Hk : kernel_size (fst (snd v0)) = 3).
    { unfold Conv2d_new in Hv0.
      destruct (_ || _ || _) in Hv0; [discriminate |].
      injection Hv0 as <-. reflexivity. }
    destruct ((C_in =? C_out) && (stride =? 1)).
    + injection Hi as _ <-. exact Hk.
    + destruct (stride =? 2).
      * bind_inv Hi. injection Hi as _ <-. exact Hk.
      * destruct (stride =? 1); [| discriminate].
        bind_inv Hi. injection Hi as _ <-. exact Hk.
Qed.

Lemma FBNetBlock_kernel_size_unused_witness :
  exists b,
    FBNetBlock_init Examples.conv_W tt 16 24 3 2 3 1 false = Ok (tt, b) /\
    FBNetBlock_init Examples.conv_W tt 16 24 5 2 3 1 false = Ok (tt, b) /\
    kernel_size (fst (op2 b)) = 3.
Proof.
  destruct (is_ok_inv
              (FBNetBlock_init Examples.conv_W tt 16 24 3 2 3 1 false)
              eq_refl) as [[[] b] E].
  exists b. split; [exact E |]. split.
  - exact (eq_trans
             (eq_sym (proj1 (FBNetBlock_kernel_size_unused Examples.conv_W tt
                               16 24 3 5 2 3 1 false))) E).
  - exact (proj2 (proj2 (FBNetBlock_kernel_size_unused Examples.conv_W tt
                           16 24 3 5 2 3 1 false)) tt b E).
Defined.

(** ** save_theta *)

Lemma list_ascii_app (a b : string) :
  list_ascii_of_string (a ++ b)%string =
  list_ascii_of_string a ++ list_ascii_of_string b.
Proof.
  induction a as [| c a IH]; simpl; [reflexivity | now rewrite IH].
Qed.

Lemma no_newline_app (a b : string) :
  no_newline a -> no_newline b -> no_newline (a ++ b)%string.
Proof.
  unfold no_newline. rewrite list_ascii_app. intros Ha Hb Hin.
  apply in_app_or in Hin. tauto.
Qed.

Lemma no_newline_cons (c : ascii) (s : string) :
  c <> newline -> no_newline s -> no_newline (String c s).
Proof.
  unfold no_newline; simpl. intros Hc Hs [Heq | Hin]; [now apply Hc | tauto].
Qed.

Lemma readlines_aux_no_newline (s : string) :
  no_newline s ->
  forall cur, length (readlines_aux cur s) <= 1.
Proof.
  induction s as [| c s IH]; intros Hs cur; simpl.
  - destruct cur; simpl; lia.
  - destruct (Ascii.eqb_spec c (ascii_of_nat 10)) as [-> | Hne].
    + exfalso. apply Hs. left. reflexivity.
    + apply IH. intros Hin. apply Hs. right. exact Hin.
Qed.

Section SaveFacts.
Context {R : Type} `{Scalar R} (O : optim_lib R).

Lemma join_space_no_newline (l : list string) :
  Forall no_newline l -> no_newline (join_space l).
Proof.
  induction 1 as [| s l Hs _ IH]; simpl.
  - intros [].
  - destruct l as [| s' l']; [exact Hs |].
    apply no_newline_app; [exact Hs |].
    apply no_newline_cons; [| exact IH].
    unfold newline; simpl; discriminate.
Qed.

(** The text [save_theta] writes holds no newline character unless the
    printed values do; [res] gets one entry per theta vector. *)
Lemma save_loop_one_line :
  (forall t, no_newline (str_tensor O t)) ->
  forall ths file res f r,
    save_loop O ths file res = Ok (f, r) ->
    no_newline file ->
    no_newline f /\ length r = length res + length ths.
Proof.
  intros Hstr. induction ths as [| t ths IH]; intros file res f r Hs Hfile.
  - injection Hs as <- <-. split; [exact Hfile | simpl; lia].
  - cbn [save_loop] in Hs. bind_inv Hs.
    apply IH in Hs.
    + destruct Hs as [Hf Hr]. split; [exact Hf |].
      rewrite Hr, length_app. simpl. lia.
    + apply no_newline_app; [exact Hfile |].
      apply no_newline_app.
      * apply join_space_no_newline. apply Forall_forall.
        intros s Hin. apply in_map_iff in Hin.
        destruct Hin as (x & <- & _). apply Hstr.
      * unfold no_newline; simpl. intros [Hc | [Hc | []]]; discriminate.
Qed.

Lemma save_theta_one_line (tr : Trainer O) (f : string)
      (r : list (list (tensor R))) :
  (forall t, no_newline (str_tensor O t)) ->
  save_theta O tr true = Ok (f, r) ->
  length (readlines f) <= 1 /\ length r = length (theta (_mod tr)).
Proof.
  unfold save_theta. intros Hstr Hs.
  destruct (save_loop_one_line Hstr _ _ _ _ _ Hs) as [Hf Hr].
  - intros [].
  - split; [apply readlines_aux_no_newline; exact Hf | exact Hr].
Qed.

End SaveFacts.

(** C9.  On every trainer over the network built from [get_blocks()],
    [save_theta] returns the 22 value lists, but the text it writes ends
    every vector with the two characters slash and n: the file holds no
    newline, begins [1 1 1 1 1 1 1 1/n1 1], and read back line by line
    gives one line, not 22. *)
Lemma save_theta_writes_slash_n :
  exists net,
    FBNet_init Examples.torch_Z 10 Examples.catalog 1%Z
               (Ok Examples.speed_lines) 1%Z 1%Z = Ok net /\
    forall tr : Trainer Examples.optim_Z,
      theta (_mod tr) = theta net ->
      exists file res,
        save_theta Examples.optim_Z tr true = Ok (file, res) /\
        length res = 22 /\
        length (readlines file) = 1 /\
        substring 0 20 file = "1 1 1 1 1 1 1 1/n1 1"%string.
Proof.
  assert (Hs :
    match FBNet_init Examples.torch_Z 10 Examples.catalog 1%Z
                     (Ok Examples.speed_lines) 1%Z 1%Z with
    | Ok net =>
        match save_loop Examples.optim_Z (theta net) EmptyString [] with
        | Ok fr =>
            Some (length (snd fr), length (readlines (fst fr)),
                  substring 0 20 (fst fr))
        | Raise _ => None
        end
    | Raise _ => None
    end = Some (22, 1, "1 1 1 1 1 1 1 1/n1 1"%string))
    by (vm_compute; reflexivity).
  destruct (is_ok_inv _ catalog_net_built) as [net E].
  rewrite E in Hs. exists net. split; [exact E |].
  intros tr Htheta. unfold save_theta. rewrite Htheta.
  destruct (save_loop _ _ _ _) as [[file res] | e]; [| discriminate Hs].
  cbn [fst snd] in Hs. injection Hs as H1 H2 H3.
  exists file, res. repeat split; assumption.
Qed.

(** ** The two optimisers *)

Lemma pname_eqb_eq (a b : pname) : pname_eqb a b = true <-> a = b.
Proof.
  destruct a, b; simpl; try (split; intros; discriminate).
  - rewrite Nat.eqb_eq. split; congruence.
  - rewrite Nat.eqb_eq. split; congruence.
  - rewrite !andb_true_iff, !Nat.eqb_eq. split.
    + intros [[-> ->] ->]. reflexivity.
    + intros E. injection E as -> -> ->. auto.
Qed.

Lemma pname_mem_In (v : pname) (l : list pname) :
  pname_mem v l = true <-> In v l.
Proof.
  unfold pname_mem. rewrite existsb_exists. split.
  - intros (x & Hin & Heq). apply pname_eqb_eq in Heq. now subst.
  - intros Hin. exists v. split; [exact Hin | now apply pname_eqb_eq].
Qed.

Section OptimiserFacts.
Context {R : Type} `{Scalar R} (T : torch_lib R) (O : optim_lib R).

Lemma theta_names_form (net : FBNet R) (n : pname) :
  In n (theta_names net) -> exists i, n = NTheta i.
Proof.
  unfold theta_names. intros Hin. apply in_map_iff in Hin.
  destruct Hin as (i & <- & _). now exists i.
Qed.

(** The weight optimiser gets parameters of the network only, each at
    most once and in their order. *)
Lemma mod_params_loop_sub (thetas : list (pname * tensor R)) :
  forall (ps : list (pname * tensor R)) (acc l : list pname),
    mod_params_loop O thetas ps acc = Ok l ->
    (forall n, In n l -> In n acc \/ In n (map fst ps)) /\
    (NoDup (acc ++ map fst ps) -> NoDup l).
Proof.
  induction ps as [| v ps IH]; intros acc l Hl.
  - injection Hl as <-. cbn [map]. rewrite app_nil_r. auto.
  - cbn [mod_params_loop] in Hl. bind_inv Hl.
    destruct (IH _ _ Hl) as [Hin Hnd]. cbn [map]. split.
    + intros n Hn. destruct (Hin n Hn) as [Ha | Hp]; [| auto with datatypes].
      destruct v0; [auto |].
      apply in_app_or in Ha. destruct Ha as [Ha | [<- | []]];
        auto with datatypes.
    + intros Hnd0. apply Hnd. destruct v0.
      * apply NoDup_remove_1 in Hnd0. exact Hnd0.
      * rewrite <- app_assoc. exact Hnd0.
Qed.

Lemma parameters_names (net : FBNet R) :
  map fst (named_parameters net) = parameters net.
Proof.
  unfold named_parameters, parameters, classifier_names.
  generalize 0.
  induction (mparams (classifier net)) as [| t ts IH]; intros a;
    [reflexivity |].
  cbn [length seq map combine fst]. now rewrite IH.
Qed.

Lemma parameters_NoDup (net : FBNet R) : NoDup (parameters net).
Proof.
  unfold parameters, classifier_names.
  assert (Hgen : forall l : list nat, NoDup l -> NoDup (map NClassifier l)).
  { induction 1 as [| a l Hnin _ IH]; simpl; constructor; [| exact IH].
    intros Hin. apply in_map_iff in Hin. destruct Hin as (x & Hx & Hin).
    injection Hx as ->. contradiction. }
  apply Hgen. apply seq_NoDup.
Qed.

Lemma parameters_form (net : FBNet R) (n : pname) :
  In n (parameters net) -> exists i, n = NClassifier i.
Proof.
  unfold parameters, classifier_names. intros Hin.
  apply in_map_iff in Hin. destruct Hin as (i & <- & _). now exists i.
Qed.

Lemma mod_params_form (net : FBNet R) (l : list pname) (n : pname) :
  mod_params O net = Ok l -> In n l -> exists i, n = NClassifier i.
Proof.
  unfold mod_params. intros Hl Hn.
  destruct (mod_params_loop_sub _ _ _ _ Hl) as [Hin _].
  destruct (Hin n Hn) as [[] | Hp].
  rewrite parameters_names in Hp. now apply parameters_form in Hp.
Qed.

(** The weights of the blocks are neither theta vectors nor among
    [network.parameters()]. *)
Lemma block_names_not_held (net : FBNet R) (l c i : nat) :
  ~ In (NBlock l c i) (theta_names net ++ parameters net).
Proof.
  intros Hin. apply in_app_or in Hin. destruct Hin as [Hin | Hin].
  - apply theta_names_form in Hin. destruct Hin as [j Hj]. discriminate Hj.
  - apply parameters_form in Hin. destruct Hin as [j Hj]. discriminate Hj.
Qed.

Lemma forward_frame (net net' : FBNet R) (x : tensor R) (y : list Z)
      (t : R) (l : tensor R) :
  forward T net x y t = Ok (net', l) ->
  theta net' = theta net /\ classifier net' = classifier net /\
  _blocks net' = _blocks net /\ _ops net' = _ops net.
Proof.
  unfold forward. intros Hf.
  bind_inv Hf. bind_inv Hf. bind_inv Hf. bind_inv Hf.
  unfold forward_tail in Hf.
  bind_inv Hf. bind_inv Hf. bind_inv Hf. bind_inv Hf. bind_inv Hf.
  bind_inv Hf. injection Hf as <- _. cbn. repeat split.
Qed.

Lemma opt_step_weights (rule : pname -> tensor R -> tensor R)
      (names : list pname) :
  (forall n, In n names -> exists i, n = NClassifier i) ->
  forall net,
    theta (opt_step rule names net) = theta net /\
    _blocks (opt_step rule names net) = _blocks net.
Proof.
  unfold opt_step.
  induction names as [| n names IH]; intros Hn net; simpl; [split; reflexivity |].
  destruct (Hn n (or_introl eq_refl)) as [i ->].
  assert (Hrest : forall m, In m names -> exists j, m = NClassifier j)
    by (intros m Hm; apply Hn; right; exact Hm).
  destruct (get_param net (NClassifier i)) as [v |].
  - destruct (IH Hrest (set_param net (NClassifier i) (rule (NClassifier i) v)))
      as [H1 H2].
    rewrite H1, H2. split; reflexivity.
  - apply IH. exact Hrest.
Qed.

Lemma opt_step_theta (rule : pname -> tensor R -> tensor R)
      (names : list pname) :
  (forall n, In n names -> exists i, n = NTheta i) ->
  forall net,
    classifier (opt_step rule names net) = classifier net /\
    _blocks (opt_step rule names net) = _blocks net.
Proof.
  unfold opt_step.
  induction names as [| n names IH]; intros Hn net; simpl; [split; reflexivity |].
  destruct (Hn n (or_introl eq_refl)) as [i ->].
  assert (Hrest : forall m, In m names -> exists j, m = NTheta j)
    by (intros m Hm; apply Hn; right; exact Hm).
  destruct (get_param net (NTheta i)) as [v |].
  - destruct (IH Hrest (set_param net (NTheta i) (rule (NTheta i) v)))
      as [H1 H2].
    rewrite H1, H2. split; reflexivity.
  - apply IH. exact Hrest.
Qed.

(** [train_w] leaves every theta vector and every block as it found
    them, whether it returns or raises. *)
Lemma train_w_frame (tr : Trainer O) (x : tensor R) (y : list Z) (d : bool) :
  (forall n, In n (tr_w tr) -> exists i, n = NClassifier i) ->
  let tr' := fst (train_w T O x y d tr) in
  theta (_mod tr') = theta (_mod tr) /\
  _blocks (_mod tr') = _blocks (_mod tr) /\
  tr_w tr' = tr_w tr /\ tr_theta tr' = tr_theta tr.
Proof.
  intros Hw. unfold train_w, tbind, tmodify, forward_backward, decay_temp.
  cbn [record_call set_grads _mod tr_w tr_theta temp grads].
  destruct (forward T (_mod tr) x y (temp tr)) as [[net' l] |] eqn:Hf.
  - apply forward_frame in Hf. destruct Hf as (Hth & _ & Hbl & _).
    destruct (opt_step_weights
                (sgd_rule O (w_opt tr)
                   (backward O net' l (zero_grad O (tr_w tr) (grads tr))))
                (tr_w tr) Hw net') as [H1 H2].
    unfold opt_step in H1, H2.
    destruct d; cbn; rewrite H1, H2, Hth, Hbl; repeat split.
  - cbn. repeat split.
Qed.

(** [train_t] leaves the classifier and every block as it found them. *)
Lemma train_t_frame (tr : Trainer O) (x : tensor R) (y : list Z) (d : bool) :
  (forall n, In n (tr_theta tr) -> exists i, n = NTheta i) ->
  let tr' := fst (train_t T O x y d tr) in
  classifier (_mod tr') = classifier (_mod tr) /\
  _blocks (_mod tr') = _blocks (_mod tr) /\
  tr_w tr' = tr_w tr /\ tr_theta tr' = tr_theta tr.
Proof.
  intros Hw. unfold train_t, tbind, tmodify, forward_backward, decay_temp.
  cbn [record_call set_grads _mod tr_w tr_theta temp grads].
  destruct (forward T (_mod tr) x y (temp tr)) as [[net' l] |] eqn:Hf.
  - apply forward_frame in Hf. destruct Hf as (_ & Hcl & Hbl & _).
    destruct (opt_step_theta
                (adam_rule O (t_opt tr)
                   (backward O net' l (zero_grad O (tr_theta tr) (grads tr))))
                (tr_theta tr) Hw net') as [H1 H2].
    unfold opt_step in H1, H2.
    destruct d; cbn; rewrite H1, H2, Hcl, Hbl; repeat split.
  - cbn. repeat split.
Qed.

End OptimiserFacts.

Lemma weighted_net_built :
  is_ok (FBNet_init Examples.torch_W 10 Examples.catalog_W 1%Z
                    (Ok Examples.speed_lines) 1%Z 1%Z) = true.
Proof. vm_compute. reflexivity. Qed.

(** C7.  On the network built from [get_blocks()] with convolutions that
    own weights and a classifier shaped as [nn.Linear(1984, 10)], building
    the trainer raises [RuntimeError]: the membership test of line 111
    compares the classifier's weight with a theta vector.  No optimiser is
    built; and the tensors the split is made from leave out the weights of
    the blocks: the first weight of the first candidate at position 1
    requires a gradient and is neither a theta vector nor among
    [network.parameters()]. *)
Lemma optimisers_miss_block_weights :
  exists net,
    FBNet_init Examples.torch_W 10 Examples.catalog_W 1%Z
               (Ok Examples.speed_lines) 1%Z 1%Z = Ok net /\
    (Trainer_init Examples.optim_Z net 0 0 0 0 0 5 1)%Z = Raise RuntimeError /\
    In (NBlock 1 0 0) (trainable_names net) /\
    ~ In (NBlock 1 0 0) (theta_names net ++ parameters net) /\
    parameters net = [NClassifier 0; NClassifier 1] /\
    length (theta_names net) = 22.
Proof.
  assert (Hc :
    match FBNet_init Examples.torch_W 10 Examples.catalog_W 1%Z
                     (Ok Examples.speed_lines) 1%Z 1%Z with
    | Ok net =>
        (pname_mem (NBlock 1 0 0) (trainable_names net),
         parameters net, length (theta_names net),
         match (Trainer_init Examples.optim_Z net 0 0 0 0 0 5 1)%Z with
         | Ok _ => None
         | Raise e => Some e
         end)
    | Raise _ => (false, [], 0, None)
    end = (true, [NClassifier 0; NClassifier 1], 22, Some RuntimeError))
    by (vm_compute; reflexivity).
  destruct (is_ok_inv _ weighted_net_built) as [net E].
  rewrite E in Hc. injection Hc as H1 H2 H3 H4.
  exists net. split; [exact E |]. split.
  { destruct (Trainer_init _ _ _ _ _ _ _ _ _) as [tr | e];
      [discriminate H4 | now injection H4 as ->]. }
  split; [apply pname_mem_In; exact H1 |].
  split; [apply block_names_not_held |].
  split; assumption.
Qed.

(** ** The search loop *)

Section SearchFacts.
Context {R : Type} `{Scalar R} (T : torch_lib R) (O : optim_lib R).

Lemma decayed_add (n m : nat) (d t : R) :
  decayed (n + m) d t = decayed m d (decayed n d t).
Proof.
  unfold decayed. rewrite Nat.add_comm. apply Nat.iter_add.
Qed.

Lemma runs_quiet {A} (m : TM O A) :
  (forall tr tr' r, m tr = (tr', r) ->
                    calls tr' = calls tr /\ temp tr' = temp tr /\
                    _tem_decay tr' = _tem_decay tr) ->
  runs m [] 0.
Proof.
  intros Hq tr tr' r Hm. destruct (Hq _ _ _ Hm) as (Hc & Ht & Hd).
  split; [exact Hd |]. split.
  - exists [], []. split; [reflexivity | now rewrite app_nil_r].
  - intros a _. rewrite app_nil_r. split; assumption.
Qed.

Lemma runs_bind {A B} (m : TM O A) (k : A -> TM O B)
      (e1 e2 : list (call_event (@batch_t R))) (n1 n2 : nat) :
  runs m e1 n1 -> (forall a, runs (k a) e2 n2) ->
  runs (tbind m k) (e1 ++ e2) (n1 + n2).
Proof.
  intros Hm Hk tr tr' r. unfold tbind.
  destruct (m tr) as [tr1 [a | e]] eqn:E1; intros E2.
  - destruct (Hm _ _ _ E1) as (Hd1 & _ & Hok1).
    destruct (Hok1 a eq_refl) as [Hc1 Ht1].
    destruct (Hk a _ _ _ E2) as (Hd2 & (pre & post & Hsplit & Hpre) & Hok2).
    split; [congruence |]. split.
    + exists (e1 ++ pre), post. split.
      * rewrite Hsplit, app_assoc. reflexivity.
      * rewrite Hpre, Hc1, app_assoc. reflexivity.
    + intros b Hb. destruct (Hok2 b Hb) as [Hc2 Ht2]. split.
      * rewrite Hc2, Hc1, app_assoc. reflexivity.
      * rewrite Ht2, Ht1, Hd1, decayed_add. reflexivity.
  - injection E2 as <- <-.
    destruct (Hm _ _ _ E1) as (Hd1 & (pre & post & Hsplit & Hpre) & _).
    split; [exact Hd1 |]. split.
    + exists pre, (post ++ e2). split.
      * rewrite Hsplit, <- app_assoc. reflexivity.
      * exact Hpre.
    + intros b Hb. discriminate Hb.
Qed.

Lemma runs_eq {A} (m : TM O A) (e e' : list (call_event (@batch_t R)))
      (n n' : nat) :
  e = e' -> n = n' -> runs m e n -> runs m e' n'.
Proof. intros -> ->. exact (fun Hr => Hr). Qed.

Lemma runs_for_each {A} (body : A -> TM O unit)
      (ev : A -> list (call_event (@batch_t R))) (cnt : A -> nat)
      (l : list A) :
  (forall a, runs (body a) (ev a) (cnt a)) ->
  runs (for_each l body) (flat_map ev l) (list_sum (map cnt l)).
Proof.
  intros Hb. induction l as [| a l IH]; simpl.
  - apply runs_quiet. intros tr tr' r Hr. injection Hr as <- _.
    repeat split.
  - apply runs_bind; [apply Hb | intros _; exact IH].
Qed.

Lemma runs_train_w (x : tensor R) (y : list Z) :
  runs (train_w T O x y false) [TrainW false (x, y)] 0.
Proof.
  intros tr tr' r.
  unfold train_w, tbind, tmodify, forward_backward, decay_temp, tret.
  cbn [record_call set_grads _mod temp].
  destruct (forward T (_mod tr) x y (temp tr)) as [[net' l] |];
    intros E; injection E as <- <-; cbn.
  - split; [reflexivity |]. split.
    + exists [TrainW false (x, y)], []. split; reflexivity.
    + intros a _. split; reflexivity.
  - split; [reflexivity |]. split.
    + exists [TrainW false (x, y)], []. split; reflexivity.
    + intros a Ha. discriminate Ha.
Qed.

Lemma runs_train_t (x : tensor R) (y : list Z) :
  runs (train_t T O x y true) [TrainT true (x, y)] 1.
Proof.
  intros tr tr' r.
  unfold train_t, tbind, tmodify, forward_backward, decay_temp, tret.
  cbn [record_call set_grads _mod temp].
  destruct (forward T (_mod tr) x y (temp tr)) as [[net' l] |];
    intros E; injection E as <- <-; cbn.
  - split; [reflexivity |]. split.
    + exists [TrainT true (x, y)], []. split; reflexivity.
    + intros a _. split; reflexivity.
  - split; [reflexivity |]. split.
    + exists [TrainT true (x, y)], []. split; reflexivity.
    + intros a Ha. discriminate Ha.
Qed.

Lemma runs_tlift {A} (r0 : result A) : runs (O := O) (tlift r0) [] 0.
Proof.
  apply runs_quiet. intros tr tr' r E. injection E as <- _. repeat split.
Qed.

Lemma runs_update_meters : runs (update_meters O) [] 0.
Proof.
  apply runs_quiet. intros tr tr' r. unfold update_meters.
  destruct (bind _ _) as [[[[bs a] c] l] | e]; intros E;
    injection E as <- _; repeat split.
Qed.

Lemma runs_maybe_report (step : nat) (logf : Z) :
  runs (maybe_report O step logf) [] 0.
Proof.
  apply runs_quiet. intros tr tr' r. unfold maybe_report.
  destruct (1 <? step); [| intros E; injection E as <- _; repeat split].
  destruct (logf =? 0)%Z; [intros E; injection E as <- _; repeat split |].
  destruct (_ =? 0)%Z; [| intros E; injection E as <- _; repeat split].
  destruct (report O (reports tr)); intros E; injection E as <- _;
    repeat split.
Qed.

(** One [_step] makes the calls of the update it is given. *)
Lemma runs_step (x : tensor R) (y : list Z) (epoch step : nat) (logf : Z)
      (func : tensor R -> list Z -> TM O unit)
      (ev : list (call_event (@batch_t R))) (n : nat) :
  runs (func x y) ev n ->
  runs (_step O x y epoch step logf func) ev n.
Proof.
  intros Hf. unfold _step.
  apply runs_eq with (e := [] ++ (ev ++ ([] ++ []))) (n := 0 + (n + (0 + 0))).
  - now rewrite !app_nil_r.
  - lia.
  - apply runs_bind; [apply runs_tlift | intros _].
    apply runs_bind; [exact Hf | intros _].
    apply runs_bind; [apply runs_update_meters | intros _].
    apply runs_maybe_report.
Qed.

Lemma flat_map_enumerate (mk : @batch_t R -> call_event (@batch_t R))
      (ds : list (@batch_t R)) :
  forall a,
    flat_map (fun sb : nat * @batch_t R =>
                [mk (fst (snd sb), snd (snd sb))])
             (combine (seq a (length ds)) ds) =
    map mk ds.
Proof.
  induction ds as [| [x y] ds IH]; intros a; simpl; [reflexivity |].
  now rewrite IH.
Qed.

Lemma list_sum_const {A} (c : nat) (l : list A) :
  list_sum (map (fun _ => c) l) = c * length l.
Proof.
  induction l as [| a l IH]; simpl; [lia | rewrite IH; lia].
Qed.

(** One pass over a loader calls the update once per batch, in order. *)
Lemma runs_pass (ds : list (@batch_t R)) (epoch : nat) (logf : Z)
      (func : tensor R -> list Z -> TM O unit)
      (mk : @batch_t R -> call_event (@batch_t R)) (c : nat) :
  (forall x y, runs (func x y) [mk (x, y)] c) ->
  runs (pass O ds epoch logf func) (map mk ds) (c * length ds).
Proof.
  intros Hf. unfold pass, enumerate.
  eapply runs_eq;
    [| | apply runs_for_each with
           (ev := fun sb : nat * @batch_t R =>
                    [mk (fst (snd sb), snd (snd sb))])
           (cnt := fun _ => c)].
  - apply flat_map_enumerate.
  - rewrite list_sum_const, length_combine, length_seq, Nat.min_id.
    reflexivity.
  - intros sb. apply runs_step. apply Hf.
Qed.

Lemma theta_steps_sum (wds tds : nat -> list (@batch_t R)) (W : nat)
      (l1 l2 : list nat) :
  list_sum (map (fun e => 0 * length (wds e)) l1) +
  list_sum (map (fun e => 1 * length (tds e) + 0 * length (wds (W + e))) l2) =
  list_sum (map (fun e => length (tds e)) l2).
Proof.
  assert (H1 : list_sum (map (fun e => 0 * length (wds e)) l1) = 0).
  { induction l1 as [| a l IH]; simpl; [reflexivity | exact IH]. }
  rewrite H1. simpl. f_equal. apply map_ext. intros e. lia.
Qed.

(** The calls and the temperature of a search whose warm-up count
    passes the assertion. *)
Lemma runs_search (wds tds : nat -> list (@batch_t R))
      (total warm logf : Z) :
  (1 <= warm)%Z ->
  runs (search T O wds tds total warm logf)
       (schedule wds tds (Z.to_nat total) (Z.to_nat warm))
       (theta_steps tds (Z.to_nat total)).
Proof.
  intros Hw. unfold search.
  replace (1 <=? warm)%Z with true by (symmetry; apply Z.leb_le; exact Hw).
  unfold schedule, theta_steps.
  eapply runs_eq; [reflexivity | apply theta_steps_sum with (wds := wds) |].
  apply runs_bind.
  - apply runs_for_each
      with (ev := fun e => map (TrainW false) (wds e))
           (cnt := fun e => 0 * length (wds e)).
    intros e. apply runs_pass. intros x y. apply runs_train_w.
  - intros _.
    apply runs_for_each
      with (ev := fun e => map (TrainT true) (tds e) ++
                           map (TrainW false) (wds (Z.to_nat warm + e)))
           (cnt := fun e => 1 * length (tds e) +
                            0 * length (wds (Z.to_nat warm + e))).
    intros e. apply runs_bind.
    + apply runs_pass. intros x y. apply runs_train_t.
    + intros _. apply runs_pass. intros x y. apply runs_train_w.
Qed.

End SearchFacts.

(** C8, as stated, fails for a warm-up count of 0: the search raises
    [AssertionError] and makes no call at all, where the claim has it run
    the alternating epochs. *)
Lemma search_zero_warmup_raises :
  snd (search Examples.torch_Z Examples.optim_Z Examples.wds0 Examples.tds0
              2 0 100 Examples.small_trainer) = Raise AssertionError /\
  calls (fst (search Examples.torch_Z Examples.optim_Z Examples.wds0
                     Examples.tds0 2 0 100 Examples.small_trainer)) = [] /\
  schedule Examples.wds0 Examples.tds0 2 0 <> [].
Proof.
  split; [reflexivity |]. split; [reflexivity |]. discriminate.
Qed.

(** C8, amended.  With a warm-up count below 1, [search] raises
    [AssertionError] before any step.  Otherwise the calls it makes are, in
    order, a first part of: [warmup_epochs] passes over the weight loader
    calling [train_w] with decay disabled, then [total_epochs] times a pass
    over the theta loader calling [train_t] with decay enabled followed by
    a pass over the weight loader calling [train_w] with decay disabled;
    when [search] returns it has made all of them, and the temperature has
    been multiplied by the decay factor once per theta step and never by a
    weight step. *)
Theorem search_schedule {R : Type} `{Scalar R} (T : torch_lib R)
        (O : optim_lib R) (wds tds : nat -> list (@batch_t R))
        (total warm logf : Z) (tr : Trainer O) :
  ((warm < 1)%Z ->
   search T O wds tds total warm logf tr = (tr, Raise AssertionError)) /\
  ((1 <= warm)%Z ->
   forall tr' r,
     search T O wds tds total warm logf tr = (tr', r) ->
     (exists pre post,
         schedule wds tds (Z.to_nat total) (Z.to_nat warm) = pre ++ post /\
         calls tr' = calls tr ++ pre) /\
     (r = Ok tt ->
      calls tr' =
        calls tr ++ schedule wds tds (Z.to_nat total) (Z.to_nat warm) /\
      temp tr' =
        decayed (theta_steps tds (Z.to_nat total)) (_tem_decay tr) (temp tr))).
Proof.
  split.
  - intros Hlt. unfold search.
    replace (1 <=? warm)%Z with false by (symmetry; apply Z.leb_gt; exact Hlt).
    reflexivity.
  - intros Hw tr' r Hs.
    destruct (runs_search T O wds tds total warm logf Hw tr tr' r Hs)
      as (_ & Hpre & Hok).
    split; [exact Hpre |]. intros ->. apply (Hok tt eq_refl).
Qed.

Lemma search_schedule_witness :
  calls (fst (search Examples.torch_Z Examples.optim_Z Examples.wds0
                     Examples.tds0 2 1 100 Examples.small_trainer)) =
    schedule Examples.wds0 Examples.tds0 2 1 /\
  temp (fst (search Examples.torch_Z Examples.optim_Z Examples.wds0
                    Examples.tds0 2 1 100 Examples.small_trainer)) = 80%Z.
Proof.
  assert (Hr : snd (search Examples.torch_Z Examples.optim_Z Examples.wds0
                           Examples.tds0 2 1 100 Examples.small_trainer)
               = Ok tt) by (vm_compute; reflexivity).
  assert (Hw : (1 <= 1)%Z) by lia.
  destruct (proj2 (search_schedule Examples.torch_Z Examples.optim_Z
                     Examples.wds0 Examples.tds0 2 1 100
                     Examples.small_trainer)
                  Hw _ _ (surjective_pairing _)) as [_ Hfull].
  exact (Hfull Hr).
Defined.

(** * Further properties *)

(** ** blocks.py: what a built block looks like *)

Section BlockFacts.
Context {R : Type} `{Scalar R} (C : conv_lib R).

Lemma Conv2d_new_ok (g : rng C) (c_in c_out k s p grp : nat) (b : bool)
      (g' : rng C) (c : conv_cfg * list (tensor R)) :
  Conv2d_new C g c_in c_out k s p grp b = Ok (g', c) ->
  fst c = mkConv c_in c_out k s p grp b /\
  grp <> 0 /\ c_in mod grp = 0 /\ c_out mod grp = 0.
Proof.
  unfold Conv2d_new.
  destruct (Nat.eqb_spec grp 0) as [-> | Hg]; [discriminate |].
  destruct (Nat.eqb_spec (c_in mod grp) 0) as [Hi | _]; [| discriminate].
  destruct (Nat.eqb_spec (c_out mod grp) 0) as [Ho | _]; [| discriminate].
  cbn. intros E. injection E as _ <-. repeat split; assumption.
Qed.

Lemma Conv2d_new_succeeds (g : rng C) (c_in c_out k s p grp : nat) (b : bool) :
  grp <> 0 -> c_in mod grp = 0 -> c_out mod grp = 0 ->
  Conv2d_new C g c_in c_out k s p grp b =
  Ok (fst (conv_params C g (mkConv c_in c_out k s p grp b)),
      (mkConv c_in c_out k s p grp b,
       snd (conv_params C g (mkConv c_in c_out k s p grp b)))).
Proof.
  intros Hg Hi Ho. unfold Conv2d_new.
  apply Nat.eqb_neq in Hg. rewrite Hg, Hi, Ho. reflexivity.
Qed.

(** In a block that [FBNetBlock.__init__] has built the three
    convolutions chain from [C_in] to [C_out] through [C_in * expansion]
    channels, the middle one is depthwise and carries the stride, and the
    skip path matches the main path: the input itself when channels and
    resolution are kept, otherwise one convolution from [C_in] to [C_out]
    with the block's stride. *)
Theorem FBNetBlock_init_structure (g g' : rng C)
        (C_in C_out kernel stride expansion group : nat) (bn : bool)
        (b : FBNetBlock) :
  FBNetBlock_init C g C_in C_out kernel stride expansion group bn
    = Ok (g', b) ->
  let mid := C_in * expansion in
  in_channels (fst (op1 b)) = C_in /\
  out_channels (fst (op1 b)) = mid /\
  in_channels (fst (op2 b)) = mid /\
  out_channels (fst (op2 b)) = mid /\
  groups (fst (op2 b)) = mid /\
  conv_stride (fst (op2 b)) = stride /\
  in_channels (fst (op3 b)) = mid /\
  out_channels (fst (op3 b)) = C_out /\
  conv_stride (fst (op1 b)) = 1 /\ conv_stride (fst (op3 b)) = 1 /\
  res_flag b = ((C_in =? C_out) && (stride =? 1)) /\
  match trans b with
  | None => res_flag b = true
  | Some t =>
      res_flag b = false /\
      in_channels (fst t) = C_in /\ out_channels (fst t) = C_out /\
      conv_stride (fst t) = stride /\
      kernel_size (fst t) = (if stride =? 2 then 3 else 1)
  end.
Proof.
  unfold FBNetBlock_init. destruct bn; [discriminate |]. intros Hi.
  bind_inv Hi. bind_inv Hi. bind_inv Hi.
  destruct v as [g1 c1], v0 as [g2 c2], v1 as [g3 c3]. cbn [fst snd] in *.
  apply Conv2d_new_ok in Hv, Hv0, Hv1.
  destruct Hv as (E1 & _), Hv0 as (E2 & _), Hv1 as (E3 & _).
  destruct ((C_in =? C_out) && (stride =? 1)) eqn:Hres.
  - injection Hi as _ <-. cbn. rewrite E1, E2, E3. cbn. repeat split.
  - destruct (Nat.eqb_spec stride 2) as [-> | Hn2].
    + bind_inv Hi. destruct v as [g4 c4]. injection Hi as _ <-.
      apply Conv2d_new_ok in Hv. destruct Hv as (E4 & _).
      cbn. rewrite E1, E2, E3, E4. cbn. repeat split.
    + destruct (Nat.eqb_spec stride 1) as [-> | Hn1]; [| discriminate Hi].
      bind_inv Hi. destruct v as [g4 c4]. injection Hi as _ <-.
      apply Conv2d_new_ok in Hv. destruct Hv as (E4 & _).
      cbn. rewrite E1, E2, E3, E4. cbn. repeat split.
Qed.

Lemma mod_mul_of_mod (a e g : nat) : a mod g = 0 -> (a * e) mod g = 0.
Proof.
  intros Ha. apply Nat.Lcm0.mod_divide. apply Nat.Lcm0.mod_divide in Ha.
  now apply Nat.divide_mul_l.
Qed.

Lemma FBNetBlock_init_raises (g : rng C)
      (C_in C_out kernel stride expansion group : nat) (bn : bool) (e : exn) :
  FBNetBlock_init C g C_in C_out kernel stride expansion group bn = Raise e ->
  e = if bn then AssertionError else ValueError.
Proof.
  revert e. assert (Hgoal : forall e,
    FBNetBlock_init C g C_in C_out kernel stride expansion group bn = Raise e ->
    e = if bn then AssertionError else ValueError); [| exact Hgoal].
  - intros e. unfold FBNetBlock_init. destruct bn; [congruence |].
    assert (Hconv : forall g0 a b0 k0 s0 p0 grp bb e0,
               Conv2d_new C g0 a b0 k0 s0 p0 grp bb = Raise e0 ->
               e0 = ValueError).
    { intros g0 a b0 k0 s0 p0 grp bb e0. unfold Conv2d_new.
      destruct (_ || _ || _); [congruence | discriminate]. }
    destruct (Conv2d_new C g C_in _ 1 1 0 group _) as [c1 |] eqn:E1;
      [| intros E; injection E as <-; eapply Hconv; exact E1].
    cbn [bind].
    destruct (Conv2d_new C (fst c1) _ _ 3 stride 1 _ _) as [c2 |] eqn:E2;
      [| intros E; injection E as <-; eapply Hconv; exact E2].
    cbn [bind].
    destruct (Conv2d_new C (fst c2) _ C_out 1 1 0 group _) as [c3 |] eqn:E3;
      [| intros E; injection E as <-; eapply Hconv; exact E3].
    cbn [bind].
    destruct ((C_in =? C_out) && (stride =? 1)); [discriminate |].
    destruct (stride =? 2).
    + destruct (Conv2d_new C (fst c3) C_in C_out 3 2 1 1 true) eqn:E4;
        [discriminate | intros E; injection E as <-; eapply Hconv; exact E4].
    + destruct (stride =? 1); [| congruence].
      destruct (Conv2d_new C (fst c3) C_in C_out 1 1 0 1 true) eqn:E4;
        [discriminate | intros E; injection E as <-; eapply Hconv; exact E4].
Qed.

(** [FBNetBlock.__init__] builds a block exactly when [bn] is off, the
    stride is 1 or 2, the group count is positive and divides both channel
    counts, and the expanded width is positive.  With [bn] on it raises
    [AssertionError]; with convolutions that can be built and a stride
    other than 1 and 2 it raises [ValueError]. *)
Theorem FBNetBlock_init_constructible (g : rng C)
        (C_in C_out kernel stride expansion group : nat) (bn : bool) :
  ((exists r,
       FBNetBlock_init C g C_in C_out kernel stride expansion group bn = Ok r)
   <->
   (bn = false /\ (stride = 1 \/ stride = 2) /\ group <> 0 /\
    C_in mod group = 0 /\ C_out mod group = 0 /\ C_in * expansion <> 0)) /\
  (bn = true ->
   FBNetBlock_init C g C_in C_out kernel stride expansion group bn
     = Raise AssertionError) /\
  (bn = false -> group <> 0 -> C_in mod group = 0 -> C_out mod group = 0 ->
   C_in * expansion <> 0 -> stride <> 1 -> stride <> 2 ->
   FBNetBlock_init C g C_in C_out kernel stride expansion group bn
     = Raise ValueError).
Proof.
  assert (Hiff :
    (exists r,
        FBNetBlock_init C g C_in C_out kernel stride expansion group bn = Ok r)
    <->
    (bn = false /\ (stride = 1 \/ stride = 2) /\ group <> 0 /\
     C_in mod group = 0 /\ C_out mod group = 0 /\ C_in * expansion <> 0)).
  { split.
    - intros [[g' b] Hi]. unfold FBNetBlock_init in Hi.
      destruct bn; [discriminate |].
      bind_inv Hi. bind_inv Hi. bind_inv Hi.
      destruct v as [g1 c1], v0 as [g2 c2], v1 as [g3 c3]. cbn [fst snd] in *.
      apply Conv2d_new_ok in Hv, Hv0, Hv1.
      destruct Hv as (_ & Hg & Hin & _), Hv0 as (_ & Hmid & _),
               Hv1 as (_ & _ & _ & Hout).
      repeat split; try assumption.
      destruct (Nat.eqb_spec C_in C_out), (Nat.eqb_spec stride 1),
               (Nat.eqb_spec stride 2); cbn in Hi; try discriminate Hi; auto.
    - intros (-> & Hs & Hg & Hin & Hout & Hmid). unfold FBNetBlock_init.
      rewrite Conv2d_new_succeeds;
        [| exact Hg | exact Hin | now apply mod_mul_of_mod].
      cbn [bind fst snd].
      rewrite Conv2d_new_succeeds;
        [| exact Hmid | apply Nat.Div0.mod_same | apply Nat.Div0.mod_same].
      cbn [bind fst snd].
      rewrite Conv2d_new_succeeds;
        [| exact Hg | now apply mod_mul_of_mod | exact Hout].
      cbn [bind fst snd negb].
      destruct ((C_in =? C_out) && (stride =? 1)); [eexists; reflexivity |].
      destruct Hs as [-> | ->]; cbn [Nat.eqb].
      + rewrite Conv2d_new_succeeds by (try discriminate; apply Nat.mod_1_r).
        eexists; reflexivity.
      + rewrite Conv2d_new_succeeds by (try discriminate; apply Nat.mod_1_r).
        eexists; reflexivity. }
  split; [exact Hiff |]. split.
  - intros ->. reflexivity.
  - intros -> _ _ _ _ Hn1 Hn2.
    destruct (FBNetBlock_init C g C_in C_out kernel stride expansion group
                              false) as [r | e] eqn:E.
    + exfalso. destruct (proj1 Hiff (ex_intro _ r eq_refl)) as (_ & Hs & _).
      destruct Hs; contradiction.
    + now rewrite (FBNetBlock_init_raises _ _ _ _ _ _ _ _ _ E).
Qed.

End BlockFacts.

(** ** blocks.py: the block sequence *)

Section CatalogFacts.
Context {R : Type} `{Scalar R} (C : conv_lib R).

Lemma get_blocks_built (g : rng C) : is_ok (get_blocks C g) = true.
Proof. vm_compute. reflexivity. Qed.

Lemma get_blocks_kinds (g : rng C) :
  match get_blocks C g with
  | Ok gb => (map block_kind (snd gb), map (@length _) (list_entries (snd gb)))
  | Raise _ => ([], [])
  end = (None :: repeat (Some 8) 22 ++ [None], repeat 8 22).
Proof. vm_compute. reflexivity. Qed.

(** Whatever the convolutions and the state of the generator,
    [get_blocks()] passes its own assertion and returns 24 entries: a
    module, 22 lists of 8 candidates each, a module.  [FBNet.__init__]
    therefore passes its assertion of 22 positions on this sequence and,
    once the latency file is read, returns a network with 22 theta vectors
    of 8 entries and 22 Mixed Operations. *)
Theorem get_blocks_catalog (g : rng C) :
  exists g' blocks,
    get_blocks C g = Ok (g', blocks) /\
    map block_kind blocks = None :: repeat (Some 8) 22 ++ [None] /\
    forall (T : torch_lib R) (num_classes : nat) (init_theta : R)
           (lines : list string) (alpha beta : R),
    exists net,
      FBNet_init T num_classes blocks init_theta (Ok lines) alpha beta
        = Ok net /\
      map (@shape R) (theta net) = repeat [8] 22 /\
      length (_ops net) = 22.
Proof.
  destruct (is_ok_inv _ (get_blocks_built g)) as [[g' blocks] E].
  pose proof (get_blocks_kinds g) as Hk. rewrite E in Hk.
  cbn [snd] in Hk. injection Hk as Hkind Hlen.
  exists g', blocks. split; [exact E |]. split; [exact Hkind |].
  intros T num_classes init_theta lines alpha beta.
  assert (H22 : length (list_entries blocks) = 22).
  { rewrite <- (length_map (@length _)), Hlen. reflexivity. }
  unfold FBNet_init. rewrite init_loop_spec. cbn [fst snd bind].
  rewrite length_map, H22. cbn [Nat.eqb].
  eexists. split; [reflexivity |]. cbn [theta _ops].
  rewrite length_map. split; [| exact H22].
  rewrite map_map. unfold initial_theta. cbn [shape].
  rewrite <- (map_map (@length _) (fun n => [n])), Hlen. reflexivity.
Qed.

End CatalogFacts.

(** ** FBNet.forward: what a call that returns leaves behind *)

(** A forward call that returns leaves the loss weights, the theta
    vectors, the Mixed Operations, the block sequence, the latency table
    and the classifier as they were.  It records the batch size (the first
    dimension of the input), the two scalar losses, the accuracy and the
    returned loss, and the returned loss is the recorded classification
    loss plus [alpha] times the recorded latency loss raised to [beta]. *)
Theorem forward_outputs {R : Type} `{Scalar R} (T : torch_lib R)
        (net net' : FBNet R) (input : tensor R) (target : list Z) (t : R)
        (l : tensor R) :
  forward T net input target t = Ok (net', l) ->
  (_alpha net' = _alpha net /\ _beta net' = _beta net /\
   theta net' = theta net /\ _ops net' = _ops net /\
   _blocks net' = _blocks net /\ _speed net' = _speed net /\
   classifier net' = classifier net) /\
  batch_size net' = nth_error (shape input) 0 /\
  loss net' = Some l /\
  acc net' <> None /\
  exists c ll,
    ce net' = Some c /\ lat_loss net' = Some ll /\
    shape c = [] /\ shape ll = [] /\
    tadd c (mkTensor []
              (map (fun a => rmul (_alpha net) (rpow T a (_beta net)))
                   (data ll))) = Ok l.
Proof.
  unfold forward. intros Hf.
  bind_inv Hf. bind_inv Hf. bind_inv Hf. bind_inv Hf.
  unfold forward_tail in Hf.
  bind_inv Hf. bind_inv Hf. bind_inv Hf. bind_inv Hf. bind_inv Hf.
  bind_inv Hf. injection Hf as <- <-. cbn.
  split; [repeat split |].
  split.
  { unfold py_index in Hv. destruct (shape input); cbn in Hv;
      [discriminate Hv | injection Hv as ->; reflexivity]. }
  split; [reflexivity |]. split; [discriminate |].
  eexists _, _. repeat split. exact Hv7.
Qed.

Lemma forward_outputs_witness :
  exists net' l,
    forward Examples.torch_Z Examples.small_net Examples.input0 [0%Z] 5%Z
      = Ok (net', l) /\
    batch_size net' = Some 1 /\ loss net' = Some l /\
    _blocks net' = _blocks Examples.small_net.
Proof.
  destruct (is_ok_inv
              (forward Examples.torch_Z Examples.small_net Examples.input0
                       [0%Z] 5%Z) eq_refl) as [[net' l] E].
  exists net', l. split; [exact E |].
  destruct (forward_outputs Examples.torch_Z _ _ _ _ _ _ E)
    as ((_ & _ & _ & _ & Hb & _) & Hbs & Hl & _).
  repeat split; assumption.
Defined.

(** ** FBNet.forward: the loop over the positions *)

Section LoopFacts.
Context {R : Type} `{Scalar R} (T : torch_lib R).

Lemma searchable_step_lat (net : FBNet R) (B : nat) (t : R)
      (st st' : loop_state R) :
  searchable_step T net B t st = Ok st' ->
  length (ls_lat st') = S (length (ls_lat st)) /\
  ls_theta_idx st' = S (ls_theta_idx st) /\
  ls_theta_idx st < length (theta net) /\
  S (ls_theta_idx st) < length (_speed net) /\
  S (ls_theta_idx st) < length (_ops net).
Proof.
  unfold searchable_step. intros Hs.
  bind_inv Hs. bind_inv Hs. bind_inv Hs. bind_inv Hs. bind_inv Hs.
  bind_inv Hs. bind_inv Hs.
  injection Hs as <-. cbn [ls_lat ls_theta_idx].
  apply py_index_ok in Hv, Hv1, Hv4.
  rewrite length_app. cbn [length]. repeat split; lia.
Qed.

Lemma forward_loop_app (net : FBNet R) (B : nat) (t : R) :
  forall (pre post : list (block R)) (st : loop_state R),
    forward_loop T net B t (pre ++ post) st =
    bind (forward_loop T net B t pre st) (forward_loop T net B t post).
Proof.
  induction pre as [| b pre IH]; intros post st; [reflexivity |].
  cbn [app forward_loop].
  destruct (loop_body T net B t b st) as [st1 |]; [| reflexivity].
  cbn [bind]. apply IH.
Qed.

End LoopFacts.

(** A loop over positions that completes has advanced the theta index
    and lengthened the list of latency terms by one for every position
    with [len(block) > 1]; every list it met had at least two candidates;
    and when it met such a position, the index it ends on is still within
    the theta vectors, the Mixed Operations and the latency rows (one more
    row than positions passed has been needed). *)
Theorem forward_loop_counts {R : Type} `{Scalar R} (T : torch_lib R)
        (net : FBNet R) (B : nat) (t : R) (bs : list (block R))
        (st st' : loop_state R) :
  forward_loop T net B t bs st = Ok st' ->
  ls_theta_idx st' = ls_theta_idx st + count_searchable bs /\
  length (ls_lat st') = length (ls_lat st) + count_searchable bs /\
  Forall (fun b => match block_kind b with
                   | Some n => 2 <= n
                   | None => True
                   end) bs /\
  (0 < count_searchable bs ->
   ls_theta_idx st' <= length (theta net) /\
   ls_theta_idx st' < length (_ops net) /\
   ls_theta_idx st' < length (_speed net)).
Proof.
  unfold count_searchable. revert st st'.
  induction bs as [| b bs IH]; intros st st' Hl.
  - injection Hl as <-. simpl. repeat split; try lia. constructor.
  - cbn [forward_loop] in Hl. bind_inv Hl.
    destruct (IH _ _ Hl) as (Hidx & Hlat & Hall & Hin).
    destruct (loop_body_ok T _ _ _ _ _ _ Hv) as [[Hs Hstep] | (Hs & Hnl & Hsame)].
    + destruct (searchable_step_lat T _ _ _ _ _ Hstep)
        as (Hl1 & Hi1 & Hth & Hsp & Hop).
      cbn [filter]. rewrite Hs. cbn [length].
      split; [lia |]. split; [lia |]. split.
      * constructor; [| exact Hall].
        destruct b as [m | l]; [exact I |].
        unfold searchable, block_len in Hs. apply Nat.ltb_lt in Hs.
        cbn [block_kind]. lia.
      * intros _. destruct (length (filter searchable bs)) eqn:E.
        -- rewrite Hidx. lia.
        -- apply Hin. lia.
    + cbn [filter]. rewrite Hs.
      destruct b as [m | l]; [| discriminate Hnl].
      split; [lia |]. split.
      * unfold loop_body, searchable in Hv, Hs.
        destruct (block_len (BModule m)) as [n |]; [| discriminate Hv].
        cbn [bind] in Hv. rewrite Hs in Hv. bind_inv Hv.
        injection Hv as <-. cbn [ls_lat] in *. lia.
      * split; [constructor; [exact I | exact Hall] | exact Hin].
Qed.

Lemma forward_loop_counts_witness :
  exists st',
    forward_loop Examples.torch_Z MoreExamples.two_net 1 5%Z
                 (tl (_blocks MoreExamples.two_net))
                 (mkLoop (PTensor MoreExamples.x2) 0 []) = Ok st' /\
    ls_theta_idx st' = 1 /\ length (ls_lat st') = 1.
Proof.
  destruct (is_ok_inv
              (forward_loop Examples.torch_Z MoreExamples.two_net 1 5%Z
                 (tl (_blocks MoreExamples.two_net))
                 (mkLoop (PTensor MoreExamples.x2) 0 [])) eq_refl)
    as [st' E].
  exists st'. split; [exact E |].
  destruct (forward_loop_counts Examples.torch_Z _ _ _ _ _ _ E)
    as (Hi & Hl & _).
  split; assumption.
Defined.

(** At a position with [len(block) > 1] the entry of the block sequence
    is only measured, never called: any two such entries give the same
    step, the candidates being those of [self._ops[theta_idx]]. *)
Theorem searchable_block_ignored {R : Type} `{Scalar R} (T : torch_lib R)
        (net : FBNet R) (B : nat) (t : R) (b b' : block R)
        (st : loop_state R) :
  searchable b = true -> searchable b' = true ->
  loop_body T net B t b st = loop_body T net B t b' st.
Proof.
  intros Hb Hb'.
  rewrite (loop_body_searchable T net B t b st Hb).
  rewrite (loop_body_searchable T net B t b' st Hb').
  reflexivity.
Qed.

Lemma searchable_block_ignored_witness :
  loop_body Examples.torch_Z MoreExamples.two_net 1 5%Z
            (BList [Examples.ident_module; Examples.double_module])
            (mkLoop (PTensor MoreExamples.x2) 0 []) =
  loop_body Examples.torch_Z MoreExamples.two_net 1 5%Z
            (BList [Examples.double_module; Examples.double_module;
                    Examples.double_module])
            (mkLoop (PTensor MoreExamples.x2) 0 []).
Proof.
  exact (searchable_block_ignored Examples.torch_Z MoreExamples.two_net 1 5%Z
           (BList [Examples.ident_module; Examples.double_module])
           (BList [Examples.double_module; Examples.double_module;
                   Examples.double_module])
           (mkLoop (PTensor MoreExamples.x2) 0 []) eq_refl eq_refl).
Defined.

(** A list-valued entry with fewer than two candidates counts as a
    position for [__init__] but not for [forward]: when the loop reaches
    it, [forward] calls the list and raises [TypeError].  The same happens
    at once when the first entry of the sequence is a list. *)
Theorem forward_short_list_raises {R : Type} `{Scalar R} (T : torch_lib R)
        (net : FBNet R) (input : tensor R) (target : list Z) (t : R) :
  (forall b0 pre l post B d0 st1,
      _blocks net = b0 :: pre ++ BList l :: post ->
      length l <= 1 ->
      nth_error (shape input) 0 = Some B ->
      block_call b0 (PTensor input) = Ok d0 ->
      forward_loop T net B t pre (mkLoop (PTensor d0) 0 []) = Ok st1 ->
      forward T net input target t = Raise TypeError) /\
  (forall l rest,
      _blocks net = BList l :: rest ->
      shape input <> [] ->
      forward T net input target t = Raise TypeError).
Proof.
  split.
  - intros b0 pre l post B d0 st1 Hbl Hlen HB Hcall Hpre.
    unfold forward, py_index. rewrite HB, Hbl. cbn [nth_error bind tl].
    rewrite Hcall. cbn [bind].
    rewrite forward_loop_app, Hpre. cbn [bind forward_loop].
    unfold loop_body. cbn [block_len bind].
    replace (1 <? length l) with false
      by (symmetry; apply Nat.ltb_ge; exact Hlen).
    reflexivity.
  - intros l rest Hbl Hsh.
    unfold forward, py_index. rewrite Hbl.
    destruct (shape input) as [| B s]; [contradiction |]. reflexivity.
Qed.

Lemma forward_short_list_raises_witness :
  forward Examples.torch_Z MoreExamples.short_net MoreExamples.x2 [0%Z] 5%Z
  = Raise TypeError.
Proof.
  exact (proj1 (forward_short_list_raises Examples.torch_Z
                  MoreExamples.short_net MoreExamples.x2 [0%Z] 5%Z)
               (BModule Examples.ident_module) [] [Examples.ident_module] []
               1 MoreExamples.x2 (mkLoop (PTensor MoreExamples.x2) 0 [])
               eq_refl (le_n 1) eq_refl eq_refl eq_refl).
Defined.

(** ** MixedOp.forward: degenerate weights and failing candidates *)

Section MixedOpEdges.
Context {R : Type} `{Scalar R}.

(** Weights that cannot be iterated (a zero-dimensional tensor) make
    [MixedOp.forward] raise [TypeError]; weights with no entry along the
    first dimension, or a Mixed Operation without candidates, make it
    return the integer 0 of the builtin [sum], not a tensor, and call no
    candidate. *)
Theorem MixedOp_forward_degenerate (m : MixedOp R) (x : pyval R)
        (weights : tensor R) :
  (shape weights = [] -> MixedOp_forward m x weights = Raise TypeError) /\
  (forall s, shape weights = 0 :: s ->
             MixedOp_forward m x weights = Ok (PInt 0)) /\
  (mo_ops m = [] -> shape weights <> [] ->
   MixedOp_forward m x weights = Ok (PInt 0)).
Proof.
  unfold MixedOp_forward, tensor_iter. split; [| split].
  - intros ->. reflexivity.
  - intros s ->. cbn. destruct (mo_ops m); reflexivity.
  - intros -> Hs. destruct (shape weights) as [| n s]; [contradiction |].
    cbn [bind]. destruct (map _ _); reflexivity.
Qed.

Lemma sum_terms_app (x : pyval R) :
  forall (ws1 : list (tensor R)) (pre : list (module R)) (acc acc' : pyval R)
         (ws2 : list (tensor R)) (rest : list (module R)),
    length ws1 = length pre ->
    sum_terms x acc ws1 pre = Ok acc' ->
    sum_terms x acc (ws1 ++ ws2) (pre ++ rest) = sum_terms x acc' ws2 rest.
Proof.
  induction ws1 as [| w ws1 IH]; intros [| op pre] acc acc' ws2 rest Hl Hs;
    try discriminate Hl.
  - injection Hs as <-. reflexivity.
  - cbn [app sum_terms] in *.
    destruct (call_module op x) as [y |]; [| discriminate Hs].
    cbn [bind] in *. destruct (tmul w y) as [tm |]; [| discriminate Hs].
    cbn [bind] in *. destruct (py_add acc tm) as [a1 |]; [| discriminate Hs].
    cbn [bind] in *. apply IH; [now injection Hl | exact Hs].
Qed.

Lemma sum_terms_returns (x : tensor R) (s : list nat) :
  forall (pre : list (module R)) (outs : list (tensor R)),
    Forall2 (fun op o => call_module op (PTensor x) = Ok o) pre outs ->
    Forall (fun o => shape o = s /\ wf_tensor o) outs ->
    forall (ws : list R) (acc : pyval R),
      sum_value s acc ->
      exists acc', sum_terms (PTensor x) acc (map scalar_t ws) pre = Ok acc'
                   /\ sum_value s acc'.
Proof.
  induction 1 as [| op o pre outs Hcall _ IH]; intros Hall ws acc Hacc.
  - exists acc. split; [destruct ws; reflexivity | exact Hacc].
  - destruct ws as [| w ws]; [exists acc; split; [reflexivity | exact Hacc] |].
    inversion Hall as [| ? ? [Hs Hwf] Hall']; subst.
    cbn [map sum_terms]. rewrite Hcall. cbn [bind].
    rewrite tmul_scalar by exact Hwf. cbn [bind].
    destruct acc as [z | a]; cbn [sum_value] in Hacc.
    + subst z. cbn [py_add bind shape data]. apply IH; [exact Hall' |].
      cbn [sum_value]. split; [reflexivity |].
      unfold wf_tensor; cbn [shape data]. rewrite !length_map. exact Hwf.
    + destruct Hacc as [Has Hawf]. cbn [py_add].
      rewrite tadd_same; [| exact Has | exact Hawf |].
      2:{ unfold wf_tensor; cbn [shape data]. rewrite length_map. exact Hwf. }
      cbn [bind]. apply IH; [exact Hall' |].
      cbn [sum_value]. split; [exact Has |].
      unfold wf_tensor; cbn [shape data].
      rewrite map2_length; [exact Hawf |].
      rewrite length_map. unfold wf_tensor in Hawf, Hwf. congruence.
Qed.

(** The first candidate that raises decides the outcome: when the
    candidates before it return tensors of one shape and a weight is paired
    with it, [MixedOp.forward] raises its exception, whatever the later
    candidates and weights are. *)
Theorem MixedOp_forward_first_failure (pre post : list (module R))
        (op : module R) (x : tensor R) (ws1 ws2 : list R) (w : R)
        (outs : list (tensor R)) (s : list nat) (e : exn) :
  length ws1 = length pre ->
  Forall2 (fun op o => call_module op (PTensor x) = Ok o) pre outs ->
  Forall (fun o => shape o = s /\ wf_tensor o) outs ->
  call_module op (PTensor x) = Raise e ->
  MixedOp_forward (MixedOp_init (pre ++ op :: post)) (PTensor x)
                  (tensor_of_floats (ws1 ++ w :: ws2)) = Raise e.
Proof.
  intros Hlen Hcalls Hall Hfail.
  unfold MixedOp_forward.
  rewrite MixedOp_init_ops, tensor_iter_vector. cbn [bind].
  destruct (sum_terms_returns x s pre outs Hcalls Hall ws1 (PInt 0) eq_refl)
    as (acc' & Hpre & _).
  rewrite map_app.
  rewrite (sum_terms_app (PTensor x) (map scalar_t ws1) pre (PInt 0) acc').
  - cbn [map sum_terms]. rewrite Hfail. reflexivity.
  - rewrite length_map. exact Hlen.
  - exact Hpre.
Qed.

End MixedOpEdges.

Lemma MixedOp_forward_first_failure_witness :
  MixedOp_forward
    (MixedOp_init ([Examples.ident_module] ++
                   MoreExamples.failing_module :: [Examples.double_module]))
    (PTensor Examples.x0)
    (tensor_of_floats ([5] ++ 7 :: [9])%Z) = Raise RuntimeError.
Proof.
  assert (Hcalls :
    Forall2 (fun op o => call_module op (PTensor Examples.x0) = Ok o)
            [Examples.ident_module] [Examples.x0])
    by (repeat constructor).
  assert (Hall :
    Forall (fun o : tensor Z => shape o = [2] /\ wf_tensor o) [Examples.x0])
    by (repeat constructor).
  exact (MixedOp_forward_first_failure
           [Examples.ident_module] [Examples.double_module]
           MoreExamples.failing_module Examples.x0 [5%Z] [9%Z] 7%Z
           [Examples.x0] [2] RuntimeError eq_refl Hcalls Hall eq_refl).
Defined.

(** ** Trainer: the two optimisers and the temperature *)

Lemma NoDup_map_injective {A B} (f : A -> B) (l : list A) :
  (forall x y, f x = f y -> x = y) -> NoDup l -> NoDup (map f l).
Proof.
  intros Hinj. induction 1 as [| a l Hnin _ IH]; simpl; constructor.
  - intros Hin. apply in_map_iff in Hin. destruct Hin as (x & Hx & Hin).
    apply Hinj in Hx. subst x. contradiction.
  - exact IH.
Qed.

(** [Trainer.__init__] tests every parameter of the network against the
    theta vectors with [in], which compares tensors with [==].  When the
    first parameter and the first theta vector do not broadcast, or their
    comparison has other than one element, the constructor raises
    [RuntimeError]; so it does for every classifier weight of shape
    [n; m] with [m > 1] against a one-dimensional theta vector.  When the
    constructor returns, the theta optimiser holds every theta vector, the
    weight optimiser holds parameters of the network only, no tensor is held
    twice or by both, and temperature and decay factor are the arguments. *)
Theorem Trainer_init_membership {R : Type} `{Scalar R} (O : optim_lib R)
        (net : FBNet R) (w_lr w_mom w_wd t_lr t_wd t0 d : R) :
  (forall w ws e es,
      mparams (classifier net) = w :: ws -> theta net = e :: es ->
      match broadcast_shapes (shape e) (shape w) with
      | None => True
      | Some s => numel s <> 1
      end ->
      Trainer_init O net w_lr w_mom w_wd t_lr t_wd t0 d = Raise RuntimeError) /\
  (forall w ws e es n m k,
      mparams (classifier net) = w :: ws -> theta net = e :: es ->
      shape w = [n; m] -> 1 < m -> shape e = [k] ->
      Trainer_init O net w_lr w_mom w_wd t_lr t_wd t0 d = Raise RuntimeError) /\
  (forall tr,
      Trainer_init O net w_lr w_mom w_wd t_lr t_wd t0 d = Ok tr ->
      _mod tr = net /\ tr_theta tr = theta_names net /\
      (forall x, In x (tr_w tr) -> In x (parameters net)) /\
      NoDup (tr_theta tr ++ tr_w tr) /\
      temp tr = t0 /\ _tem_decay tr = d /\ calls tr = []).
Proof.
  assert (Hraise : forall w ws e es,
    mparams (classifier net) = w :: ws -> theta net = e :: es ->
    match broadcast_shapes (shape e) (shape w) with
    | None => True
    | Some s => numel s <> 1
    end ->
    Trainer_init O net w_lr w_mom w_wd t_lr t_wd t0 d = Raise RuntimeError).
  { intros w ws e es Hw He Hb.
    unfold Trainer_init, mod_params, named_parameters, named_thetas,
      parameters, classifier_names, theta_names.
    rewrite Hw, He.
    cbn [length seq map combine mod_params_loop tensor_in fst snd pname_eqb].
    unfold tensor_eq_truth.
    destruct (broadcast_shapes (shape e) (shape w)) as [s |]; [| reflexivity].
    apply Nat.eqb_neq in Hb. rewrite Hb. reflexivity. }
  split; [exact Hraise |]. split.
  - intros w ws e es n m k Hw He Hsw Hm Hse.
    apply (Hraise w ws e es Hw He). rewrite Hsw, Hse.
    unfold broadcast_shapes. cbn [rev app bshape].
    assert (Hnm : forall a, numel [a; m] <> 1).
    { intros a. unfold numel. cbn [fold_right]. rewrite Nat.mul_1_r.
      intros E. apply Nat.eq_mul_1 in E. lia. }
    destruct (Nat.eqb_spec k m) as [-> | _];
      [cbn [option_map rev app]; apply Hnm |].
    destruct (k =? 1); [cbn [option_map rev app]; apply Hnm |].
    destruct (Nat.eqb_spec m 1); [lia | exact I].
  - intros tr Hi. unfold Trainer_init in Hi. bind_inv Hi.
    injection Hi as <-.
    cbn [new_trainer _mod tr_theta tr_w temp _tem_decay calls].
    unfold mod_params in Hv.
    destruct (mod_params_loop_sub O _ _ _ _ Hv) as [Hin Hnd].
    rewrite parameters_names in Hin, Hnd.
    assert (Hsub : forall x, In x v -> In x (parameters net)).
    { intros x Hx. destruct (Hin x Hx) as [[] | Hp]. exact Hp. }
    repeat split; try assumption.
    apply NoDup_app.
    + unfold theta_names. apply NoDup_map_injective;
        [intros x y E; now injection E | apply seq_NoDup].
    + apply Hnd. apply parameters_NoDup.
    + intros x Ht Hx. apply theta_names_form in Ht. destruct Ht as [i ->].
      apply Hsub, parameters_form in Hx. destruct Hx as [j Hj].
      discriminate Hj.
Qed.

Lemma Trainer_init_membership_witness :
  exists tr,
    (Trainer_init Examples.optim_Z MoreExamples.scalar_net 0 0 0 0 0 5 2)%Z
      = Ok tr /\
    tr_theta tr = [NTheta 0] /\
    NoDup (tr_theta tr ++ tr_w tr).
Proof.
  destruct (is_ok_inv
              (Trainer_init Examples.optim_Z MoreExamples.scalar_net
                            0 0 0 0 0 5 2)%Z eq_refl) as [tr E].
  exists tr. split; [exact E |].
  destruct (proj2 (proj2 (Trainer_init_membership Examples.optim_Z
                            MoreExamples.scalar_net 0 0 0 0 0 5 2)%Z) tr E)
    as (_ & Ht & _ & Hnd & _).
  split; [exact Ht | exact Hnd].
Defined.

(** Either update multiplies the temperature by the decay factor exactly
    when it is called with the decay flag on (the default of both) and
    returns; an update that raises, or one called with the flag off, leaves
    the temperature as it was.  The decay factor itself never changes. *)
Theorem train_temperature {R : Type} `{Scalar R} (T : torch_lib R)
        (O : optim_lib R) (x : tensor R) (y : list Z) (d : bool)
        (tr : Trainer O) :
  let after (res : Trainer O * result unit) :=
      _tem_decay (fst res) = _tem_decay tr /\
      temp (fst res) =
        match snd res with
        | Ok _ => if d then rmul (temp tr) (_tem_decay tr) else temp tr
        | Raise _ => temp tr
        end in
  after (train_w T O x y d tr) /\ after (train_t T O x y d tr).
Proof.
  cbv zeta. split.
  - unfold train_w, tbind, tmodify, forward_backward, decay_temp, tret.
    cbn [record_call set_grads _mod temp].
    destruct (forward T (_mod tr) x y (temp tr)) as [[net' l] |];
      [destruct d |]; cbn; split; reflexivity.
  - unfold train_t, tbind, tmodify, forward_backward, decay_temp, tret.
    cbn [record_call set_grads _mod temp].
    destruct (forward T (_mod tr) x y (temp tr)) as [[net' l] |];
      [destruct d |]; cbn; split; reflexivity.
Qed.

Lemma train_w_frame_witness :
  theta (_mod (fst (train_w Examples.torch_Z Examples.optim_Z MoreExamples.x2
                            [0%Z] true MoreExamples.w_trainer))) =
  theta (_mod MoreExamples.w_trainer).
Proof.
  assert (Hw : forall n, In n (tr_w MoreExamples.w_trainer) ->
                         exists i, n = NClassifier i).
  { intros n Hin. vm_compute in Hin.
    destruct Hin as [<- | [<- | []]]; eexists; reflexivity. }
  exact (proj1 (train_w_frame Examples.torch_Z Examples.optim_Z
                  MoreExamples.w_trainer MoreExamples.x2 [0%Z] true Hw)).
Defined.

Lemma train_t_frame_witness :
  classifier (_mod (fst (train_t Examples.torch_Z Examples.optim_Z
                                 MoreExamples.x2 [0%Z] true
                                 MoreExamples.w_trainer))) =
  classifier (_mod MoreExamples.w_trainer).
Proof.
  assert (Hw : forall n, In n (tr_theta MoreExamples.w_trainer) ->
                         exists i, n = NTheta i).
  { intros n Hin. vm_compute in Hin.
    destruct Hin as [<- | []]; eexists; reflexivity. }
  exact (proj1 (train_t_frame Examples.torch_Z Examples.optim_Z
                  MoreExamples.w_trainer MoreExamples.x2 [0%Z] true Hw)).
Defined.

(** ** Trainer.search: what it never touches *)

Section StructureFacts.
Context {R : Type} `{Scalar R} (T : torch_lib R) (O : optim_lib R).

Lemma same_structure_refl (tr : Trainer O) : same_structure tr tr.
Proof. unfold same_structure. repeat split. Qed.

Lemma same_structure_trans (a b c : Trainer O) :
  same_structure a b -> same_structure b c -> same_structure a c.
Proof.
  unfold same_structure.
  intros (H1 & H2 & H3 & H4 & H5 & H6) (K1 & K2 & K3 & K4 & K5 & K6).
  repeat split; congruence.
Qed.

Lemma keeps_bind {A B} (m : TM O A) (k : A -> TM O B) :
  keeps m -> (forall a, keeps (k a)) -> keeps (tbind m k).
Proof.
  intros Hm Hk tr tr' r. unfold tbind.
  destruct (m tr) as [tr1 [a | e]] eqn:E1; intros E2.
  - eapply same_structure_trans; [eapply Hm; exact E1 | eapply Hk; exact E2].
  - injection E2 as <- _. eapply Hm; exact E1.
Qed.

Lemma keeps_for_each {A} (body : A -> TM O unit) (l : list A) :
  (forall a, keeps (body a)) -> keeps (for_each l body).
Proof.
  intros Hb. induction l as [| a l IH]; simpl.
  - intros tr tr' r E. injection E as <- _. apply same_structure_refl.
  - apply keeps_bind; [apply Hb | intros _; exact IH].
Qed.

Lemma keeps_tlift {A} (r0 : result A) : keeps (O := O) (tlift r0).
Proof.
  intros tr tr' r E. injection E as <- _. apply same_structure_refl.
Qed.

Lemma opt_step_structure (rule : pname -> tensor R -> tensor R)
      (names : list pname) :
  forall net,
    _blocks (opt_step rule names net) = _blocks net /\
    _ops (opt_step rule names net) = _ops net /\
    _speed (opt_step rule names net) = _speed net.
Proof.
  unfold opt_step.
  induction names as [| n names IH]; intros net; simpl; [repeat split |].
  destruct (get_param net n) as [v |]; [| apply IH].
  destruct (IH (set_param net n (rule n v))) as (H1 & H2 & H3).
  rewrite H1, H2, H3. destruct n; repeat split.
Qed.

Lemma forward_structure (net net' : FBNet R) (x : tensor R) (y : list Z)
      (t : R) (l : tensor R) :
  forward T net x y t = Ok (net', l) ->
  _blocks net' = _blocks net /\ _ops net' = _ops net /\
  _speed net' = _speed net.
Proof.
  unfold forward. intros Hf.
  bind_inv Hf. bind_inv Hf. bind_inv Hf. bind_inv Hf.
  unfold forward_tail in Hf.
  bind_inv Hf. bind_inv Hf. bind_inv Hf. bind_inv Hf. bind_inv Hf.
  bind_inv Hf. injection Hf as <- _. cbn. repeat split.
Qed.

Lemma keeps_tmodify (f : Trainer O -> Trainer O) :
  (forall tr, same_structure tr (f tr)) -> keeps (tmodify f).
Proof.
  intros Hf tr tr' r E. injection E as <- _. apply Hf.
Qed.

Lemma keeps_forward_backward (x : tensor R) (y : list Z) :
  keeps (forward_backward T O x y).
Proof.
  intros tr tr' r. unfold forward_backward.
  destruct (forward T (_mod tr) x y (temp tr)) as [[net' l] |] eqn:Hf;
    intros E; injection E as <- _.
  - apply forward_structure in Hf. destruct Hf as (F1 & F2 & F3).
    unfold same_structure. cbn. repeat split; assumption.
  - apply same_structure_refl.
Qed.

Lemma keeps_decay_temp (d : bool) : keeps (O := O) (decay_temp O d).
Proof.
  destruct d; unfold decay_temp.
  - apply keeps_tmodify. intros tr. unfold same_structure. cbn. repeat split.
  - intros tr tr' r E. injection E as <- _. apply same_structure_refl.
Qed.

Lemma keeps_train_w (x : tensor R) (y : list Z) (d : bool) :
  keeps (train_w T O x y d).
Proof.
  unfold train_w.
  apply keeps_bind; [| intros _].
  { apply keeps_tmodify. intros tr. unfold same_structure. cbn. repeat split. }
  apply keeps_bind; [| intros _].
  { apply keeps_tmodify. intros tr. unfold same_structure. cbn. repeat split. }
  apply keeps_bind; [apply keeps_forward_backward | intros _].
  apply keeps_bind; [| intros _; apply keeps_decay_temp].
  apply keeps_tmodify. intros tr.
  destruct (opt_step_structure (sgd_rule O (w_opt tr) (grads tr))
                               (tr_w tr) (_mod tr)) as (S1 & S2 & S3).
  unfold same_structure. cbn [set_opts set_mod _mod tr_w tr_theta _tem_decay].
  repeat split; assumption.
Qed.

Lemma keeps_train_t (x : tensor R) (y : list Z) (d : bool) :
  keeps (train_t T O x y d).
Proof.
  unfold train_t.
  apply keeps_bind; [| intros _].
  { apply keeps_tmodify. intros tr. unfold same_structure. cbn. repeat split. }
  apply keeps_bind; [| intros _].
  { apply keeps_tmodify. intros tr. unfold same_structure. cbn. repeat split. }
  apply keeps_bind; [apply keeps_forward_backward | intros _].
  apply keeps_bind; [| intros _; apply keeps_decay_temp].
  apply keeps_tmodify. intros tr.
  destruct (opt_step_structure (adam_rule O (t_opt tr) (grads tr))
                               (tr_theta tr) (_mod tr)) as (S1 & S2 & S3).
  unfold same_structure. cbn [set_opts set_mod _mod tr_w tr_theta _tem_decay].
  repeat split; assumption.
Qed.

Lemma keeps_update_meters : keeps (update_meters O).
Proof.
  intros tr tr' r. unfold update_meters.
  destruct (bind _ _) as [[[[bs a] c] l] | e]; intros E;
    injection E as <- _; [| apply same_structure_refl].
  unfold same_structure. cbn. repeat split.
Qed.

Lemma keeps_maybe_report (step : nat) (logf : Z) :
  keeps (maybe_report O step logf).
Proof.
  intros tr tr' r. unfold maybe_report.
  destruct (1 <? step);
    [| intros E; injection E as <- _; apply same_structure_refl].
  destruct (logf =? 0)%Z;
    [intros E; injection E as <- _; apply same_structure_refl |].
  destruct (_ =? 0)%Z;
    [| intros E; injection E as <- _; apply same_structure_refl].
  destruct (report O (reports tr)); intros E; injection E as <- _;
    [| apply same_structure_refl].
  unfold same_structure. cbn. repeat split.
Qed.

Lemma keeps_step (x : tensor R) (y : list Z) (epoch step : nat) (logf : Z)
      (func : tensor R -> list Z -> TM O unit) :
  keeps (func x y) -> keeps (_step O x y epoch step logf func).
Proof.
  intros Hf. unfold _step.
  apply keeps_bind; [apply keeps_tlift | intros _].
  apply keeps_bind; [exact Hf | intros _].
  apply keeps_bind; [apply keeps_update_meters | intros _].
  apply keeps_maybe_report.
Qed.

Lemma keeps_pass (ds : list (@batch_t R)) (epoch : nat) (logf : Z)
      (func : tensor R -> list Z -> TM O unit) :
  (forall x y, keeps (func x y)) -> keeps (pass O ds epoch logf func).
Proof.
  intros Hf. unfold pass. apply keeps_for_each.
  intros sb. apply keeps_step. apply Hf.
Qed.

Lemma keeps_search (wds tds : nat -> list (@batch_t R))
      (total warm logf : Z) :
  keeps (search T O wds tds total warm logf).
Proof.
  unfold search. destruct (1 <=? warm)%Z; [| apply keeps_tlift].
  apply keeps_bind.
  - apply keeps_for_each. intros e. apply keeps_pass.
    intros x y. apply keeps_train_w.
  - intros _. apply keeps_for_each. intros e. apply keeps_bind.
    + apply keeps_pass. intros x y. apply keeps_train_t.
    + intros _. apply keeps_pass. intros x y. apply keeps_train_w.
Qed.

End StructureFacts.

(** Whatever the loaders hold and however the search ends, the trainer
    comes out with the block sequence, the Mixed Operations and the latency
    table of its network, the tensors of each optimiser and the decay factor
    as they were: the search never updates or replaces a candidate
    operation. *)
Theorem search_keeps_structure {R : Type} `{Scalar R} (T : torch_lib R)
        (O : optim_lib R) (wds tds : nat -> list (@batch_t R))
        (total warm logf : Z) (tr : Trainer O) :
  let tr' := fst (search T O wds tds total warm logf tr) in
  _blocks (_mod tr') = _blocks (_mod tr) /\
  _ops (_mod tr') = _ops (_mod tr) /\
  _speed (_mod tr') = _speed (_mod tr) /\
  tr_w tr' = tr_w tr /\
  tr_theta tr' = tr_theta tr /\
  _tem_decay tr' = _tem_decay tr.
Proof.
  cbv zeta.
  exact (keeps_search T O wds tds total warm logf tr _ _
           (surjective_pairing (search T O wds tds total warm logf tr))).
Qed.

(** ** Trainer.save_theta: the file and the returned lists *)

Lemma string_app_assoc (a b c : string) :
  ((a ++ b) ++ c)%string = (a ++ (b ++ c))%string.
Proof.
  induction a as [| ch a IH]; simpl; [reflexivity | now rewrite IH].
Qed.

Lemma string_app_nil_r (a : string) : (a ++ EmptyString)%string = a.
Proof.
  induction a as [| ch a IH]; simpl; [reflexivity | now rewrite IH].
Qed.

Section SaveSpec.
Context {R : Type} `{Scalar R} (O : optim_lib R).

Lemma save_loop_spec :
  forall (ths : list (tensor R)) (file : string)
         (res : list (list (tensor R))),
    save_loop O ths file res =
    (r <- map_result tensor_iter ths ;;
     Ok ((file ++ theta_file O r)%string, res ++ r)).
Proof.
  induction ths as [| t ths IH]; intros file res.
  - cbn. now rewrite string_app_nil_r, app_nil_r.
  - cbn [save_loop map_result].
    destruct (tensor_iter t) as [t_list |]; [| reflexivity].
    cbn [bind]. rewrite IH.
    destruct (map_result tensor_iter ths) as [r |]; [| reflexivity].
    cbn [bind theta_file fold_right].
    rewrite string_app_assoc, <- app_assoc. reflexivity.
Qed.

Lemma map_result_iter_raises (ths : list (tensor R)) :
  Exists (fun t => shape t = []) ths ->
  map_result tensor_iter ths = Raise TypeError.
Proof.
  induction 1 as [t ths Ht | t ths _ IH]; cbn [map_result].
  - unfold tensor_iter. rewrite Ht. reflexivity.
  - unfold tensor_iter at 1. destruct (shape t); [reflexivity |].
    cbn [bind]. rewrite IH. reflexivity.
Qed.

(** [save_theta] raises [OSError] when the file cannot be opened.
    Otherwise it cuts every theta vector along its first dimension, returns
    these value lists in order, and has written them one after another,
    each list with single spaces between its printed values and ended by a
    slash and the letter n; a theta vector without dimensions makes it
    raise [TypeError]. *)
Theorem save_theta_spec (tr : Trainer O) :
  save_theta O tr false = Raise OSError /\
  save_theta O tr true =
    (r <- map_result tensor_iter (theta (_mod tr)) ;; Ok (theta_file O r, r)) /\
  (Exists (fun t => shape t = []) (theta (_mod tr)) ->
   save_theta O tr true = Raise TypeError).
Proof.
  unfold save_theta. rewrite save_loop_spec. cbn [append app].
  split; [reflexivity |]. split; [reflexivity |].
  intros Hex. rewrite (map_result_iter_raises _ Hex). reflexivity.
Qed.

End SaveSpec.

(** ** Trainer._step: the report *)

(** Once the update and the meters are through, a step with index 0 or 1
    never reports, whatever the interval; a later step raises
    [ZeroDivisionError] when the interval is 0, the update having already
    been applied; and with a nonzero interval that does not divide the
    index it returns without a report. *)
Theorem step_report_interval {R : Type} `{Scalar R} (O : optim_lib R)
        (x : tensor R) (y : list Z) (epoch step : nat) (logf : Z)
        (func : tensor R -> list Z -> TM O unit) (tr tr1 tr2 : Trainer O) :
  cuda_available O = true ->
  func x y tr = (tr1, Ok tt) ->
  update_meters O tr1 = (tr2, Ok tt) ->
  (step <= 1 -> _step O x y epoch step logf func tr = (tr2, Ok tt)) /\
  (1 < step -> logf = 0%Z ->
   _step O x y epoch step logf func tr = (tr2, Raise ZeroDivisionError)) /\
  (1 < step -> logf <> 0%Z -> (Z.of_nat step mod logf <> 0)%Z ->
   _step O x y epoch step logf func tr = (tr2, Ok tt)).
Proof.
  intros Hcuda Hf Hm. unfold _step, tbind, tlift.
  rewrite Hcuda, Hf, Hm. unfold maybe_report. repeat split.
  - intros Hs. replace (1 <? step) with false
      by (symmetry; apply Nat.ltb_ge; exact Hs). reflexivity.
  - intros Hs ->. replace (1 <? step) with true
      by (symmetry; apply Nat.ltb_lt; exact Hs). reflexivity.
  - intros Hs Hl Hmod. replace (1 <? step) with true
      by (symmetry; apply Nat.ltb_lt; exact Hs).
    apply Z.eqb_neq in Hl, Hmod. rewrite Hl, Hmod. reflexivity.
Qed.

Lemma step_report_interval_witness :
  exists tr2,
    _step Examples.optim_Z Examples.input0 [0%Z] 0 2 0
          (fun x y => train_w Examples.torch_Z Examples.optim_Z x y false)
          Examples.small_trainer = (tr2, Raise ZeroDivisionError) /\
    calls tr2 = [TrainW false (Examples.input0, [0%Z])].
Proof.
  exists (fst (update_meters Examples.optim_Z
                 (fst (train_w Examples.torch_Z Examples.optim_Z
                               Examples.input0 [0%Z] false
                               Examples.small_trainer)))).
  split; [| vm_compute; reflexivity].
  apply (step_report_interval Examples.optim_Z Examples.input0 [0%Z] 0 2 0%Z
           (fun x y => train_w Examples.torch_Z Examples.optim_Z x y false)
           Examples.small_trainer
           (fst (train_w Examples.torch_Z Examples.optim_Z
                         Examples.input0 [0%Z] false Examples.small_trainer))).
  - reflexivity.
  - vm_compute; reflexivity.
  - vm_compute; reflexivity.
  - lia.
  - reflexivity.
Defined.

(** ** The rows of the latency table *)

Lemma rstrip_blank (b : string) : blank b -> rstrip b = EmptyString.
Proof.
  unfold blank. induction b as [| c b IH]; intros Hb; [reflexivity |].
  simpl in Hb. inversion Hb as [| ? ? Hc Hb']; subst.
  simpl. rewrite (IH Hb'), Hc. reflexivity.
Qed.

Lemma rstrip_keeps (a : string) (c : ascii) (b : string) :
  is_space c = false -> blank b ->
  rstrip (a ++ String c b) = (a ++ String c EmptyString)%string.
Proof.
  intros Hc Hb. induction a as [| d a IH]; simpl.
  - rewrite (rstrip_blank b Hb), Hc. reflexivity.
  - rewrite IH. destruct a; reflexivity.
Qed.

Lemma string_last (s : string) :
  s <> EmptyString ->
  exists a c, s = (a ++ String c EmptyString)%string /\
              In c (list_ascii_of_string s).
Proof.
  induction s as [| d s IH]; intros Hne; [contradiction |].
  destruct s as [| d' s'].
  - exists EmptyString, d. split; [reflexivity | left; reflexivity].
  - destruct IH as (a & c & Ha & Hin); [discriminate |].
    exists (String d a), c. split; [simpl; now rewrite <- Ha |].
    right. exact Hin.
Qed.

Lemma not_space_char (c : ascii) :
  is_space c = false -> Ascii.eqb c " "%char = false.
Proof.
  intros Hc. destruct (Ascii.eqb_spec c " "%char) as [-> | _];
    [discriminate Hc | reflexivity].
Qed.

Lemma split_space_token (s : string) :
  Forall (fun c => is_space c = false) (list_ascii_of_string s) ->
  split_space s = [s] /\
  forall r, split_space (s ++ String " " r) = s :: split_space r.
Proof.
  induction s as [| c s IH]; intros Hs.
  - split; [reflexivity | intros r; reflexivity].
  - simpl in Hs. inversion Hs as [| ? ? Hc Hs']; subst.
    destruct (IH Hs') as [H1 H2]. apply not_space_char in Hc.
    split.
    + simpl. rewrite Hc, H1. reflexivity.
    + intros r. simpl. rewrite Hc, H2. reflexivity.
Qed.

Lemma split_join_tokens (tokens : list string) :
  tokens <> [] -> Forall clean_token tokens ->
  split_space (join_space tokens) = tokens.
Proof.
  intros Hne Hall. induction Hall as [| s l [_ Hs] Hl IH]; [contradiction |].
  destruct l as [| s' l'].
  - simpl. apply split_space_token. exact Hs.
  - change (join_space (s :: s' :: l'))
      with (s ++ String " " (join_space (s' :: l')))%string.
    rewrite (proj2 (split_space_token s Hs)), IH; [reflexivity | discriminate].
Qed.

Lemma join_tokens_ends (tokens : list string) :
  tokens <> [] -> Forall clean_token tokens ->
  (exists c r, join_space tokens = String c r /\ is_space c = false) /\
  (exists a c, join_space tokens = (a ++ String c EmptyString)%string /\
               is_space c = false).
Proof.
  intros Hne Hall. induction Hall as [| s l [Hs Hcl] Hl IH]; [contradiction |].
  assert (Hfirst : exists c r, s = String c r /\ is_space c = false).
  { destruct s as [| c r]; [contradiction |].
    exists c, r. split; [reflexivity |]. simpl in Hcl. now inversion Hcl. }
  destruct l as [| s' l'].
  - cbn [join_space]. split; [exact Hfirst |].
    destruct (string_last s Hs) as (a & c & Ha & Hin).
    exists a, c. split; [exact Ha |].
    rewrite Forall_forall in Hcl. apply Hcl. exact Hin.
  - change (join_space (s :: s' :: l'))
      with (s ++ String " " (join_space (s' :: l')))%string.
    destruct IH as [_ (a & c & Ha & Hc)]; [discriminate |]. split.
    + destruct Hfirst as (c0 & r & -> & Hc0).
      exists c0, (r ++ String " " (join_space (s' :: l')))%string.
      split; [reflexivity | exact Hc0].
    + exists (s ++ String " " a)%string, c. split; [| exact Hc].
      rewrite Ha, string_app_assoc. reflexivity.
Qed.

(** A row of the latency table written as costs with single spaces
    between them, followed by any run of whitespace such as the end of the
    line, is cut by [strip().split(' ')] into exactly those costs, in
    order; so is a line of values joined by [' '.join]. *)
Theorem latency_row_tokens (tokens : list string) (trail : string) :
  tokens <> [] -> Forall clean_token tokens -> blank trail ->
  split_space (strip (join_space tokens ++ trail)) = tokens.
Proof.
  intros Hne Hall Hblank.
  destruct (join_tokens_ends tokens Hne Hall)
    as [(c0 & r & Hfirst & Hc0) (a & c & Hlast & Hc)].
  assert (Hstrip : strip (join_space tokens ++ trail) = join_space tokens).
  { unfold strip.
    assert (Hl : lstrip (join_space tokens ++ trail)
                 = (join_space tokens ++ trail)%string).
    { rewrite Hfirst. simpl. rewrite Hc0. reflexivity. }
    rewrite Hl, Hlast, string_app_assoc. simpl.
    apply rstrip_keeps; assumption. }
  rewrite Hstrip. apply split_join_tokens; assumption.
Qed.

Lemma latency_row_tokens_witness :
  split_space (strip Examples.speed_line) =
  ["1"; "2"; "3"; "4"; "5"; "6"; "7"; "8"]%string.
Proof.
  assert (Hne : ["1"; "2"; "3"; "4"; "5"; "6"; "7"; "8"]%string <> [])
    by discriminate.
  assert (Hall : Forall clean_token
                        ["1"; "2"; "3"; "4"; "5"; "6"; "7"; "8"]%string).
  { repeat constructor; discriminate. }
  assert (Hb : blank (String (ascii_of_nat 10) EmptyString))
    by (repeat constructor).
  exact (latency_row_tokens ["1"; "2"; "3"; "4"; "5"; "6"; "7"; "8"]%string
           (String (ascii_of_nat 10) EmptyString) Hne Hall Hb).
Defined.

(** ** Construction: alignment of theta vectors and Mixed Operations *)

(** [MixedOp.__init__] keeps the candidates in the order they are given,
    so that the index of a weight is the index of its candidate. *)
Theorem MixedOp_init_order {R : Type} (l : list (module R)) :
  mo_ops (MixedOp_init l) = l /\
  forall i, nth_error (mo_ops (MixedOp_init l)) i = nth_error l i.
Proof.
  assert (Hops : mo_ops (MixedOp_init l) = l).
  { unfold MixedOp_init; cbn [mo_ops].
    assert (Hgen : forall acc : list (module R),
               fold_left (fun ops op => ops ++ [op]) l acc = acc ++ l).
    { induction l as [| a l IH]; intros acc; simpl.
      - now rewrite app_nil_r.
      - rewrite IH, <- app_assoc. reflexivity. }
    apply Hgen. }
  split; [exact Hops |]. intros i. now rewrite Hops.
Qed.

(** In a network that [FBNet.__init__] returns, the theta vectors and
    the Mixed Operations run in parallel over the list-valued entries of
    the block sequence: the k-th theta vector has one entry, equal to the
    initial value, for each candidate of the k-th Mixed Operation, whose
    candidates are those of the k-th list.  The latency table is the file's
    lines, and none of the outputs of [forward] is set yet. *)
Theorem FBNet_init_aligned {R : Type} `{Scalar R} (T : torch_lib R)
        (num_classes : nat) (blocks : list (block R)) (init_theta : R)
        (speed_f : result (list string)) (alpha beta : R) (net : FBNet R) :
  FBNet_init T num_classes blocks init_theta speed_f alpha beta = Ok net ->
  Forall2 (fun th mop =>
             th = mkTensor [length (mo_ops mop)]
                           (repeat init_theta (length (mo_ops mop))))
          (theta net) (_ops net) /\
  map (@mo_ops R) (_ops net) = list_entries blocks /\
  speed_f = Ok (_speed net) /\
  _alpha net = alpha /\ _beta net = beta /\
  ce net = None /\ lat_loss net = None /\ loss net = None /\
  acc net = None /\ batch_size net = None.
Proof.
  unfold FBNet_init. rewrite init_loop_spec. cbn [fst snd].
  destruct (_ =? 22); [| discriminate].
  intros Hi. bind_inv Hi. injection Hi as <-. cbn.
  split; [| split; [| repeat split; assumption]].
  - induction (list_entries blocks) as [| l ls IH]; cbn [map]; constructor.
    + unfold initial_theta. rewrite MixedOp_init_ops. reflexivity.
    + exact IH.
  - rewrite map_map. rewrite <- (map_id (list_entries blocks)) at 2.
    apply map_ext. intros l. apply MixedOp_init_ops.
Qed.

Lemma FBNet_init_aligned_witness :
  exists net,
    FBNet_init Examples.torch_Z 10 Examples.catalog 1%Z
               (Ok Examples.speed_lines) 1%Z 1%Z = Ok net /\
    Forall2 (fun th mop =>
               th = mkTensor [length (mo_ops mop)]
                             (repeat 1%Z (length (mo_ops mop))))
            (theta net) (_ops net).
Proof.
  destruct (is_ok_inv _ catalog_net_built) as [net E].
  exists net. split; [exact E |].
  exact (proj1 (FBNet_init_aligned Examples.torch_Z 10 Examples.catalog 1%Z
                  (Ok Examples.speed_lines) 1%Z 1%Z net E)).
Defined.

Lemma FBNetBlock_init_structure_witness :
  exists b,
    FBNetBlock_init Examples.conv_W tt 16 24 5 2 3 1 false = Ok (tt, b) /\
    in_channels (fst (op1 b)) = 16 /\ groups (fst (op2 b)) = 48 /\
    out_channels (fst (op3 b)) = 24 /\ res_flag b = false.
Proof.
  destruct (is_ok_inv
              (FBNetBlock_init Examples.conv_W tt 16 24 5 2 3 1 false)
              eq_refl) as [[[] b] E].
  exists b. split; [exact E |].
  destruct (FBNetBlock_init_structure Examples.conv_W tt tt 16 24 5 2 3 1
              false b E)
    as (H1 & _ & _ & _ & H5 & _ & _ & H8 & _ & _ & H11 & _).
  repeat split; assumption.
Defined.
